(** * CAIP-2 / CAIP-10 identifiers of [donutnomad/xchain], package [caip10]

    A shallow embedding of the identifier value model: the colon splitters,
    the validation grammars, the chain identifier, the generic account
    identifier with its codecs, the three namespace variants and the parser
    registry, followed by the properties established about them.

    Conventions.
    - A Go [string] is a Rocq [string] (a sequence of 8-bit characters);
      [len] is [String.length], and slicing is [stake]/[sdrop]/[slice].
    - A Go [[]byte] is a [list ascii]; [[]byte(s)] and [string(b)] are
      [list_ascii_of_string] and [string_of_list_ascii].
    - A fallible Go function [(T, error)] returns [result T]; an error is
      represented by its kind (the sentinel it wraps with [%w]), the detail
      text being dropped.
    - A Go pointer that the code compares with [nil] is an [option]. *)

From Stdlib Require Import String Ascii List ZArith Lia Bool DecimalString DecimalZ.
From stdpp Require Import gmap strings.

Open Scope string_scope.

(* stdpp seals string concatenation against [simpl]; the proofs below
   compute with it on constructors. *)
#[local] Arguments String.append !s1 s2 : simpl nomatch.

(** ** Errors (errors.go) *)

Inductive error : Type :=
| ErrInvalidFormat
| ErrInvalidNamespace
| ErrInvalidReference
| ErrInvalidAddress
| ErrEmptyValue
| ErrOther.  (* an error that wraps none of the sentinels, e.g. a scan type mismatch *)

Inductive result (A : Type) : Type :=
| Ok (a : A)
| Err (e : error).
Arguments Ok {A} a.
Arguments Err {A} e.

Definition bind {A B : Type} (r : result A) (k : A -> result B) : result B :=
  match r with
  | Ok a => k a
  | Err e => Err e
  end.

Notation "'let?' x ':=' r 'in' k" := (bind r (fun x => k))
  (at level 10, x pattern, r at level 100, k at level 200).

Definition is_ok {A : Type} (r : result A) : bool :=
  match r with Ok _ => true | Err _ => false end.

(** ** String slicing *)

Module Str.

(** [s[:n]] *)
Fixpoint stake (n : nat) (s : string) : string :=
  match n, s with
  | S n', String c t => String c (stake n' t)
  | _, _ => EmptyString
  end.

(** [s[n:]] *)
Fixpoint sdrop (n : nat) (s : string) : string :=
  match n, s with
  | S n', String _ t => sdrop n' t
  | _, _ => s
  end.

(** [s[lo:hi]] *)
Definition slice (lo hi : nat) (s : string) : string :=
  stake (hi - lo) (sdrop lo s).

Definition colon : ascii := ":"%char.

(** The loop [for i < len(s) && s[i] != ':' { i++ }] run on the suffix
    that starts at the loop variable: the number of steps it makes. *)
Fixpoint skip_to_colon (s : string) : nat :=
  match s with
  | EmptyString => 0
  | String c t => if Ascii.eqb c colon then 0 else S (skip_to_colon t)
  end.

(** The value of the loop variable after the loop, started at [i]. *)
Definition scan_colon (s : string) (i : nat) : nat :=
  i + skip_to_colon (sdrop i s).

(** Number of colons of a string. *)
Fixpoint colons (s : string) : nat :=
  match s with
  | EmptyString => 0
  | String c t => (if Ascii.eqb c colon then 1 else 0) + colons t
  end.

(** [for j := range reference { if reference[j] == ':' ... }] *)
Fixpoint has_colon (s : string) : bool :=
  match s with
  | EmptyString => false
  | String c t => if Ascii.eqb c colon then true else has_colon t
  end.

End Str.
Import Str.

(** ** Splitting (errors.go) *)

Definition Namespace := string.

(** [SplitCAIP2] splits a CAIP-2 chain ID string into namespace and reference. *)
Definition SplitCAIP2 (s : string) : result (string * string) :=
  if Nat.eqb (String.length s) 0 then Err ErrEmptyValue
  else
    let i := scan_colon s 0 in
    if Nat.leb (String.length s) i then Err ErrInvalidFormat
    else
      let namespace := stake i s in
      let reference := sdrop (i + 1) s in
      if has_colon reference then Err ErrInvalidFormat
      else Ok (namespace, reference).

(** [SplitCAIP10] splits a CAIP-10 string into namespace, reference and address. *)
Definition SplitCAIP10 (s : string) : result (Namespace * string * string) :=
  if Nat.eqb (String.length s) 0 then Err ErrEmptyValue
  else
    let i := scan_colon s 0 in
    if Nat.leb (String.length s) i then Err ErrInvalidFormat
    else
      let namespace := stake i s in
      let j := scan_colon s (i + 1) in
      if Nat.leb (String.length s) j then Err ErrInvalidFormat
      else
        let reference := slice (i + 1) j s in
        let address := sdrop (j + 1) s in
        Ok (namespace, reference, address).

(** ** Regular expressions

    Every pattern of the package is anchored ([^...$]) and star-free, built
    from character classes, literals, alternation, options and bounded
    repetition, and is only used through [MatchString]. Such a pattern is an
    element of [regex]; [MatchString] decides whether the whole string is in
    its language. All classes are ASCII, so matching byte by byte agrees with
    Go's matching rune by rune: a byte above 127 is in no class. *)

Module Regexp.

Inductive regex : Type :=
| REps                               (* the empty pattern *)
| RClass (p : ascii -> bool)         (* one character of a class *)
| RCat (a b : regex)                 (* a b *)
| RAlt (a b : regex).                (* a|b *)

(** [r{n}] *)
Fixpoint rpow (n : nat) (r : regex) : regex :=
  match n with
  | 0 => REps
  | S n' => RCat r (rpow n' r)
  end.

(** [r{0,n}] *)
Fixpoint rupto (n : nat) (r : regex) : regex :=
  match n with
  | 0 => REps
  | S n' => RAlt (RCat r (rupto n' r)) REps
  end.

(** [r{lo,hi}] *)
Definition RRep (lo hi : nat) (r : regex) : regex :=
  RCat (rpow lo r) (rupto (hi - lo) r).

(** [r?] *)
Definition ROpt (r : regex) : regex := RAlt r REps.

(** A literal character and a literal string. *)
Definition RChar (c : ascii) : regex := RClass (Ascii.eqb c).

Fixpoint RLit (s : string) : regex :=
  match s with
  | EmptyString => REps
  | String c t => RCat (RChar c) (RLit t)
  end.

(** [matchk r s k]: some prefix of [s] is in [r] and the rest satisfies [k]. *)
Fixpoint matchk (r : regex) (s : string) (k : string -> bool) : bool :=
  match r with
  | REps => k s
  | RClass p =>
      match s with
      | String c t => p c && k t
      | EmptyString => false
      end
  | RCat a b => matchk a s (fun rest => matchk b rest k)
  | RAlt a b => matchk a s k || matchk b s k
  end.

Definition is_empty (s : string) : bool :=
  match s with EmptyString => true | _ => false end.

(** [regexp.MustCompile("^r$").MatchString(s)] *)
Definition MatchString (r : regex) (s : string) : bool :=
  matchk r s is_empty.

(** Character classes. *)
Definition in_range (lo hi c : ascii) : bool :=
  (nat_of_ascii lo <=? nat_of_ascii c)%nat && (nat_of_ascii c <=? nat_of_ascii hi)%nat.

Fixpoint one_of (set : string) (c : ascii) : bool :=
  match set with
  | EmptyString => false
  | String x t => Ascii.eqb x c || one_of t c
  end.

Definition lower : ascii -> bool := in_range "a" "z".
Definition upper : ascii -> bool := in_range "A" "Z".
Definition digit : ascii -> bool := in_range "0" "9".

(** Every character of a string is in a class. *)
Fixpoint all_in (p : ascii -> bool) (s : string) : bool :=
  match s with
  | EmptyString => true
  | String c t => p c && all_in p t
  end.

End Regexp.
Import Regexp.

(** ** Validation constraints and patterns (errors.go) *)

Definition NamespaceMinLen := 3.
Definition NamespaceMaxLen := 8.
Definition ReferenceMinLen := 1.
Definition ReferenceMaxLen := 32.
Definition AddressMinLen := 1.
Definition AddressMaxLen := 128.

(** [[-a-z0-9]] *)
Definition namespace_class (c : ascii) : bool :=
  Ascii.eqb c "-" || lower c || digit c.

(** [[-_a-zA-Z0-9]] *)
Definition reference_class (c : ascii) : bool :=
  Ascii.eqb c "-" || Ascii.eqb c "_" || lower c || upper c || digit c.

(** [[-.%a-zA-Z0-9]] *)
Definition address_class (c : ascii) : bool :=
  Ascii.eqb c "-" || Ascii.eqb c "." || Ascii.eqb c "%" || lower c || upper c || digit c.

(** [^[-a-z0-9]{3,8}$] *)
Definition NamespaceRegex : regex := RRep 3 8 (RClass namespace_class).
(** [^[-_a-zA-Z0-9]{1,32}$] *)
Definition ReferenceRegex : regex := RRep 1 32 (RClass reference_class).
(** [^[-.%a-zA-Z0-9]{1,128}$] *)
Definition AddressRegex : regex := RRep 1 128 (RClass address_class).

(** ** Numbers read from and written to strings (Go's [strconv] and [math/big]) *)

Module Num.

Definition digit_value (c : ascii) : option Z :=
  if digit c then Some (Z.of_nat (nat_of_ascii c) - 48)%Z else None.

(** The value of a run of decimal digits that follows digits of value [acc];
    [None] on any other character. *)
Fixpoint digits_from (acc : Z) (s : string) : option Z :=
  match s with
  | EmptyString => Some acc
  | String c t =>
      match digit_value c with
      | Some d => digits_from (10 * acc + d)%Z t
      | None => None
      end
  end.

(** A non-empty run of decimal digits. *)
Definition decimal (s : string) : option Z :=
  match s with
  | EmptyString => None
  | _ => digits_from 0%Z s
  end.

(** [strconv.ParseUint(s, 10, 64)]: decimal digits only (no sign, no
    underscore in base 10), at least one, and a value that fits 64 bits. *)
Definition ParseUint64 (s : string) : option Z :=
  match decimal s with
  | Some v => if (v <? 2 ^ 64)%Z then Some v else None
  | None => None
  end.

(** [new(big.Int).SetString(s, 10)]: an optional sign, then at least one
    decimal digit, and nothing else. *)
Definition SetString10 (s : string) : option Z :=
  match s with
  | String "+" t => decimal t
  | String "-" t => option_map Z.opp (decimal t)
  | _ => decimal s
  end.

(** [big.Int.String()] and [strconv.FormatUint(_, 10)]: the decimal
    numeral, with a leading [-] for a negative number. *)
Definition FormatInt (z : Z) : string :=
  NilZero.string_of_int (Z.to_int z).

End Num.
Import Num.

(** ** [strings.Split(s, ":")] *)

Fixpoint Split_colon (s : string) : list string :=
  match s with
  | EmptyString => [EmptyString]
  | String c t =>
      if Ascii.eqb c colon then EmptyString :: Split_colon t
      else match Split_colon t with
           | h :: r => String c h :: r
           | [] => [String c EmptyString]
           end
  end.

(** ** Namespaces of the built-in variants *)

Definition NamespaceEIP155 : Namespace := "eip155".
Definition NamespaceSolana : Namespace := "solana".
Definition NamespaceBIP122 : Namespace := "bip122".

(** [[1-9A-HJ-NP-Za-km-z]], the base58 alphabet (solana.go) *)
Definition base58_class (c : ascii) : bool :=
  in_range "1" "9" c || in_range "A" "H" c || in_range "J" "N" c
  || in_range "P" "Z" c || in_range "a" "k" c || in_range "m" "z" c.

(** [[a-f0-9]] *)
Definition hex_lower_class (c : ascii) : bool :=
  in_range "a" "f" c || digit c.

(** ** ChainID (chain_id.go) *)

(** [^[a-f0-9]{32}$] *)
Definition bip122ReferenceRegex : regex := RRep 32 32 (RClass hex_lower_class).
(** [^[1-9A-HJ-NP-Za-km-z]{32}$] *)
Definition solanaReferenceRegex : regex := RRep 32 32 (RClass base58_class).

Record ChainID : Type := mkChainID {
  chain_Namespace : Namespace;
  chain_Reference : string
}.

(** [ChainID{}] *)
Definition ChainID_zero : ChainID := mkChainID "" "".

(** [validateReference] validates the reference for a given namespace. *)
Definition validateReference (ns : Namespace) (reference : string) : result unit :=
  if String.eqb ns NamespaceEIP155 then
    match ParseUint64 reference with
    | Some _ => Ok tt
    | None => Err ErrInvalidReference
    end
  else if String.eqb ns NamespaceSolana then
    if negb (MatchString solanaReferenceRegex reference) then Err ErrInvalidReference
    else Ok tt
  else if String.eqb ns NamespaceBIP122 then
    if negb (MatchString bip122ReferenceRegex reference) then Err ErrInvalidReference
    else Ok tt
  else Err ErrInvalidNamespace.

(** [NewEIP155ChainID(chainID uint64)] *)
Definition NewEIP155ChainID (chainID : Z) : ChainID :=
  mkChainID NamespaceEIP155 (FormatInt chainID).

Definition ParseChainID (s : string) : result ChainID :=
  match Split_colon s with
  | [ns; reference] =>
      let? _ := validateReference ns reference in
      Ok (mkChainID ns reference)
  | _ => Err ErrInvalidFormat
  end.

Definition ChainID_IsZero (c : ChainID) : bool :=
  String.eqb (chain_Namespace c) "" && String.eqb (chain_Reference c) "".

Definition ChainID_Equal (c other : ChainID) : bool :=
  String.eqb (chain_Namespace c) (chain_Namespace other)
  && String.eqb (chain_Reference c) (chain_Reference other).

Definition ChainID_Validate (c : ChainID) : result unit :=
  if ChainID_IsZero c then Err ErrEmptyValue
  else validateReference (chain_Namespace c) (chain_Reference c).

Definition ChainID_String (c : ChainID) : string :=
  if ChainID_IsZero c then ""
  else chain_Namespace c ++ ":" ++ chain_Reference c.

(** ** External collaborators

    The Ethereum address type with its hex codec ([ecommon]) and the Solana
    public key with its base58 codec ([web3]) live outside the package. The
    package only calls the operations below; they are kept abstract. *)

Class External : Type := {
  (** [ecommon.Address] *)
  Address : Type;
  (** [ecommon.HexToAddress]: never fails *)
  HexToAddress : string -> Address;
  (** [Address.Hex()] *)
  Address_Hex : Address -> string;
  (** [web3.PublicKey] *)
  PublicKey : Type;
  (** [web3.NewPublicKey]: [None] when it returns an error *)
  NewPublicKey : string -> option PublicKey;
  (** [PublicKey.Bytes()] *)
  PublicKey_Bytes : PublicKey -> list ascii;
  (** [PublicKey.String()] *)
  PublicKey_String : PublicKey -> string
}.

(** ** GenericAccountID (generic.go): the data *)

Record GenericAccountID : Type := mkGeneric {
  namespace : Namespace;
  reference : string;
  address : string
}.

(** [GenericAccountID{}] *)
Definition Generic_zero : GenericAccountID := mkGeneric "" "" "".

(** [newGenericUnchecked] creates without validation. *)
Definition newGenericUnchecked (ns : Namespace) (ref addr : string) : GenericAccountID :=
  mkGeneric ns ref addr.

(** Methods with receiver [a *GenericAccountID]; [None] is the nil pointer. *)

Definition Generic_Namespace (a : option GenericAccountID) : Namespace :=
  match a with None => "" | Some g => namespace g end.

Definition Generic_Reference (a : option GenericAccountID) : string :=
  match a with None => "" | Some g => reference g end.

Definition Generic_Address (a : option GenericAccountID) : string :=
  match a with None => "" | Some g => address g end.

Definition Generic_ChainID (a : option GenericAccountID) : ChainID :=
  match a with
  | None => ChainID_zero
  | Some _ => mkChainID (Generic_Namespace a) (Generic_Reference a)
  end.

Definition Generic_IsZero (a : option GenericAccountID) : bool :=
  match a with
  | None => true
  | Some g =>
      String.eqb (namespace g) "" && String.eqb (reference g) ""
      && String.eqb (address g) ""
  end.

Definition Generic_String (a : option GenericAccountID) : string :=
  if Generic_IsZero a then ""
  else match a with
       | Some g => namespace g ++ ":" ++ reference g ++ ":" ++ address g
       | None => ""
       end.

(** ** BIP122 (bip122.go) *)

Definition BIP122Network := string.

Definition BitcoinMainnet : BIP122Network := "000000000019d6689c085ae165831e93".
Definition BitcoinTestnet : BIP122Network := "000000000933ea01ad0ee984209779ba".
Definition BitcoinCashMainnet : BIP122Network := "000000000000000000651ef99cb9fcbe".
Definition LitecoinMainnet : BIP122Network := "12a765e31ffd4059bada1e25190f6e98".
Definition LitecoinTestnet : BIP122Network := "4966625a4b2851d9fdee139e56211a0d".
Definition DogecoinMainnet : BIP122Network := "1a91e3dace36e2be3bf030a65679fe82".
Definition DogecoinTestnet : BIP122Network := "bb0a78264637406b6360aad926284d54".
Definition DashMainnet : BIP122Network := "00000ffd590b1485b3caadc19b22e637".

(** [BIP122Network.String]: the reference, cut to 32 bytes when longer. *)
Definition BIP122Network_String (n : BIP122Network) : string :=
  if (32 <? String.length n)%nat then stake 32 n else n.

(** [[qpzry9x8gf2tvdw0s3jn54khce6mua7l]] *)
Definition bech32_class : ascii -> bool := one_of "qpzry9x8gf2tvdw0s3jn54khce6mua7l".

(** [[a-km-zA-HJ-NP-Z1-9]] *)
Definition base58btc_class (c : ascii) : bool :=
  in_range "a" "k" c || in_range "m" "z" c || in_range "A" "H" c
  || in_range "J" "N" c || in_range "P" "Z" c || in_range "1" "9" c.

(** [^(bc1[bech32]{39,59}|3[base58]{25,34})$] *)
Definition bitcoinMainnetAddressRegex : regex :=
  RAlt (RCat (RLit "bc1") (RRep 39 59 (RClass bech32_class)))
       (RCat (RLit "3") (RRep 25 34 (RClass base58btc_class))).

(** [^(tb1[bech32]{39,59}|2[base58]{25,34})$] *)
Definition bitcoinTestnetAddressRegex : regex :=
  RAlt (RCat (RLit "tb1") (RRep 39 59 (RClass bech32_class)))
       (RCat (RLit "2") (RRep 25 34 (RClass base58btc_class))).

(** [^(bitcoincash:)?[qp][bech32]{41}$|^[13][base58]{25,34}$] *)
Definition bitcoinCashMainnetAddressRegex : regex :=
  RAlt (RCat (ROpt (RLit "bitcoincash:"))
          (RCat (RClass (one_of "qp")) (RRep 41 41 (RClass bech32_class))))
       (RCat (RClass (one_of "13")) (RRep 25 34 (RClass base58btc_class))).

(** [^(ltc1[bech32]{39,59}|[M3][base58]{25,34})$] *)
Definition litecoinMainnetAddressRegex : regex :=
  RAlt (RCat (RLit "ltc1") (RRep 39 59 (RClass bech32_class)))
       (RCat (RClass (one_of "M3")) (RRep 25 34 (RClass base58btc_class))).

(** [^(tltc1[bech32]{39,59}|[mn2][base58]{25,34})$] *)
Definition litecoinTestnetAddressRegex : regex :=
  RAlt (RCat (RLit "tltc1") (RRep 39 59 (RClass bech32_class)))
       (RCat (RClass (one_of "mn2")) (RRep 25 34 (RClass base58btc_class))).

(** [^[D9A][base58]{25,34}$] *)
Definition dogecoinMainnetAddressRegex : regex :=
  RCat (RClass (one_of "D9A")) (RRep 25 34 (RClass base58btc_class)).

(** [^[nm][base58]{25,34}$] *)
Definition dogecoinTestnetAddressRegex : regex :=
  RCat (RClass (one_of "nm")) (RRep 25 34 (RClass base58btc_class)).

(** [^[X7][base58]{25,34}$] *)
Definition dashMainnetAddressRegex : regex :=
  RCat (RClass (one_of "X7")) (RRep 25 34 (RClass base58btc_class)).

(** [^([base58]{25,35}|[a-z]{1,12}:?[bech32]{39,64})$] *)
Definition genericBIP122AddressRegex : regex :=
  RAlt (RRep 25 35 (RClass base58btc_class))
       (RCat (RRep 1 12 (RClass lower))
          (RCat (ROpt (RLit ":")) (RRep 39 64 (RClass bech32_class)))).

(** [ValidateBIP122Address] validates an address for a specific network. *)
Definition ValidateBIP122Address (network : BIP122Network) (addr : string) : result unit :=
  if Nat.eqb (String.length addr) 0 then Err ErrInvalidAddress
  else
    let regex :=
      if String.eqb network BitcoinMainnet then bitcoinMainnetAddressRegex
      else if String.eqb network BitcoinTestnet then bitcoinTestnetAddressRegex
      else if String.eqb network BitcoinCashMainnet then bitcoinCashMainnetAddressRegex
      else if String.eqb network LitecoinMainnet then litecoinMainnetAddressRegex
      else if String.eqb network LitecoinTestnet then litecoinTestnetAddressRegex
      else if String.eqb network DogecoinMainnet then dogecoinMainnetAddressRegex
      else if String.eqb network DogecoinTestnet then dogecoinTestnetAddressRegex
      else if String.eqb network DashMainnet then dashMainnetAddressRegex
      else genericBIP122AddressRegex in
    if negb (MatchString regex addr) then Err ErrInvalidAddress
    else Ok tt.

(** [bip122AccountID]: the embedded generic identifier and the network. *)
Record bip122AccountID : Type := mkBIP122 {
  bip122_base : option GenericAccountID;
  network : BIP122Network
}.

(** [NewBIP122] creates a new BIP122AccountID. *)
Definition NewBIP122 (net : BIP122Network) (addr : string) : bip122AccountID :=
  let base := newGenericUnchecked NamespaceBIP122 (BIP122Network_String net) addr in
  mkBIP122 (Some base) net.

(** [NewBIP122WithValidation] creates a new BIP122AccountID with address validation. *)
Definition NewBIP122WithValidation (net : BIP122Network) (addr : string)
  : result bip122AccountID :=
  let? _ := ValidateBIP122Address net addr in
  Ok (NewBIP122 net addr).

(** ** Solana (solana.go): the network token *)

Definition SolanaNetwork := string.

Definition SolanaMainnet : SolanaNetwork := "5eykt4UsFv8P8NJdTREpY1vzqKqZKvdp".
Definition SolanaDevnet : SolanaNetwork := "EtWTRABZaYq6iMfeYKouRu166VU2xqa1".
Definition SolanaTestnet : SolanaNetwork := "4uhcVJyU9pJkvQyS88uRDiswHXSCkY3z".

(** [SolanaNetwork.String] *)
Definition SolanaNetwork_String (n : SolanaNetwork) : string :=
  if (32 <? String.length n)%nat then stake 32 n else n.

Definition SolanaAddressLength := 32.

(** [^[1-9A-HJ-NP-Za-km-z]{32,44}$] *)
Definition solanaAddressRegex : regex := RRep 32 44 (RClass base58_class).

(** [NewSolanaChainID] (chain_id.go) *)
Definition NewSolanaChainID (net : SolanaNetwork) : ChainID :=
  mkChainID NamespaceSolana (SolanaNetwork_String net).

(** [NewBIP122ChainID] (chain_id.go) *)
Definition NewBIP122ChainID (blockHash : BIP122Network) : result ChainID :=
  let? _ := validateReference NamespaceBIP122 blockHash in
  Ok (mkChainID NamespaceBIP122 blockHash).

(** ** EIP155 (eip155.go, utils.go): the chain id *)

(** [maxEIP155ChainID] is the maximum chain ID allowed: 10^32 - 1. *)
Definition maxEIP155ChainID : Z := (10 ^ 32 - 1)%Z.

(** The types admitted by the constraint [eip155ChainID] of [NewEIP155]:
    a (non-nil) [*big.Int], a [*uint256.Int], an unsigned integer of some
    width, a signed integer of some width. A value of a fixed-width type is
    within the range of its type. *)
Inductive eip155ChainID : Type :=
| OfBigInt (v : Z)
| OfUint256 (v : N)
| OfUint (v : N)      (* uint, uint8, uint16, uint32, uint64 *)
| OfInt (v : Z).      (* int, int8, int16, int32, int64 *)

(** [bigIntOrIntToBigInt] *)
Definition bigIntOrIntToBigInt (num : eip155ChainID) : Z :=
  match num with
  | OfBigInt v => v
  | OfUint256 v => Z.of_N v
  | OfUint v => Z.of_N v
  | OfInt v => v
  end.

(** ** Calls that may panic *)

(** What a call does when the code can panic: it returns, or it panics. *)
Inductive outcome (A : Type) : Type :=
| Returns (a : A)
| Panics.
Arguments Returns {A} a.
Arguments Panics {A}.

Section Identifiers.

Context {X : External}.

(** ** EIP155 (eip155.go) *)

(** [eip155AccountID]: the embedded generic identifier, the native address
    and the chain id ([None] is a nil [*big.Int]). *)
Record eip155AccountID : Type := mkEIP155 {
  eip155_base : option GenericAccountID;
  ethAddr : Address;
  chainID : option Z
}.

(** [NewEIP155] creates a new EIP155AccountID. If the chain id exceeds
    [maxEIP155ChainID] it is capped to that value. *)
Definition NewEIP155 (c : eip155ChainID) (addr : Address) : eip155AccountID :=
  let _chainID := bigIntOrIntToBigInt c in
  let _chainID := if (maxEIP155ChainID <? _chainID)%Z then maxEIP155ChainID else _chainID in
  mkEIP155
    (Some (newGenericUnchecked NamespaceEIP155 (FormatInt _chainID) (Address_Hex addr)))
    addr
    (Some _chainID).

(** [NewEIP155FromHex] *)
Definition NewEIP155FromHex (c : eip155ChainID) (hexAddress : string) : eip155AccountID :=
  NewEIP155 c (HexToAddress hexAddress).

(** [newEIP155FromReference] creates from a string reference (used by the parser). *)
Definition newEIP155FromReference (ref hexAddress : string) : result eip155AccountID :=
  match SetString10 ref with
  | None => Err ErrInvalidReference
  | Some c => Ok (NewEIP155FromHex (OfBigInt c) hexAddress)
  end.

(** [EIP155ChainID] returns the chain id as a big integer; [None] is nil. *)
Definition EIP155ChainID (a : option eip155AccountID) : option Z :=
  match a with
  | None => None
  | Some r => chainID r
  end.

(** ** Solana (solana.go) *)

Record solanaAccountID : Type := mkSolana {
  solana_base : option GenericAccountID;
  pubkey : PublicKey
}.

(** [NewSolana] creates a new SolanaAccountID. *)
Definition NewSolana (net : SolanaNetwork) (addr : PublicKey) : solanaAccountID :=
  let addrStr := PublicKey_String addr in
  let base := newGenericUnchecked NamespaceSolana (SolanaNetwork_String net) addrStr in
  mkSolana (Some base) addr.

(** [NewSolanaFromBase58] creates a new SolanaAccountID from a base58 string. *)
Definition NewSolanaFromBase58 (net : SolanaNetwork) (base58Address : string)
  : result solanaAccountID :=
  if negb (MatchString solanaAddressRegex base58Address) then Err ErrInvalidAddress
  else
    match NewPublicKey base58Address with
    | None => Err ErrInvalidAddress
    | Some addr =>
        if negb (Nat.eqb (List.length (PublicKey_Bytes addr)) SolanaAddressLength)
        then Err ErrInvalidAddress
        else Ok (NewSolana net addr)
    end.

(** ** The AccountID interface

    An interface value holds a pointer to one of the four implementations;
    the pointer itself may be nil. The nil interface value is [None] of
    [option AccountID]. *)

Inductive AccountID : Type :=
| OfGeneric (p : option GenericAccountID)
| OfEIP155 (p : option eip155AccountID)
| OfSolana (p : option solanaAccountID)
| OfBIP122 (p : option bip122AccountID).

(** The embedded [*GenericAccountID] through which a variant reaches the
    promoted methods. (On a nil variant pointer Go panics when it selects
    the embedded field; the model answers as for a nil generic pointer, and
    [Equal] below never asks it.) *)
Definition AccountID_base (a : AccountID) : option GenericAccountID :=
  match a with
  | OfGeneric p => p
  | OfEIP155 p => match p with Some r => eip155_base r | None => None end
  | OfSolana p => match p with Some r => solana_base r | None => None end
  | OfBIP122 p => match p with Some r => bip122_base r | None => None end
  end.

Definition AccountID_Namespace (a : AccountID) : Namespace :=
  Generic_Namespace (AccountID_base a).
Definition AccountID_Reference (a : AccountID) : string :=
  Generic_Reference (AccountID_base a).
Definition AccountID_Address (a : AccountID) : string :=
  Generic_Address (AccountID_base a).
Definition AccountID_ChainID (a : AccountID) : ChainID :=
  Generic_ChainID (AccountID_base a).
Definition AccountID_String (a : AccountID) : string :=
  Generic_String (AccountID_base a).

(** [IsZero] of each implementation. *)
Definition eip155_IsZero (a : option eip155AccountID) : bool :=
  match a with
  | None => true
  | Some r =>
      match eip155_base r with
      | None => true
      | Some g => Generic_IsZero (Some g)
      end
  end.

Definition solana_IsZero (a : option solanaAccountID) : bool :=
  match a with
  | None => true
  | Some r =>
      match solana_base r with
      | None => true
      | Some g => Generic_IsZero (Some g)
      end
  end.

Definition bip122_IsZero (a : option bip122AccountID) : bool :=
  match a with
  | None => true
  | Some r =>
      match bip122_base r with
      | None => true
      | Some g => Generic_IsZero (Some g)
      end
  end.

Definition AccountID_IsZero (a : AccountID) : bool :=
  match a with
  | OfGeneric p => Generic_IsZero p
  | OfEIP155 p => eip155_IsZero p
  | OfSolana p => solana_IsZero p
  | OfBIP122 p => bip122_IsZero p
  end.

(** [other == nil || other.IsZero()] *)
Definition nil_or_zero (other : option AccountID) : bool :=
  match other with
  | None => true
  | Some b => AccountID_IsZero b
  end.

(** [GenericAccountID.Equal] *)
Definition Generic_Equal (a : option GenericAccountID) (other : option AccountID) : bool :=
  if Generic_IsZero a && nil_or_zero other then true
  else if Generic_IsZero a || nil_or_zero other then false
  else
    match a, other with
    | Some g, Some b =>
        String.eqb (namespace g) (AccountID_Namespace b)
        && String.eqb (reference g) (AccountID_Reference b)
        && String.eqb (address g) (AccountID_Address b)
    | _, _ => false
    end.

(** [eip155AccountID.Equal] *)
Definition eip155_Equal (a : option eip155AccountID) (other : option AccountID) : bool :=
  if eip155_IsZero a && nil_or_zero other then true
  else if eip155_IsZero a || nil_or_zero other then false
  else
    match a with
    | Some r => Generic_Equal (eip155_base r) other
    | None => false
    end.

(** [solanaAccountID.Equal] *)
Definition solana_Equal (a : option solanaAccountID) (other : option AccountID) : bool :=
  if solana_IsZero a && nil_or_zero other then true
  else if solana_IsZero a || nil_or_zero other then false
  else
    match a with
    | Some r => Generic_Equal (solana_base r) other
    | None => false
    end.

(** [bip122AccountID.Equal] *)
Definition bip122_Equal (a : option bip122AccountID) (other : option AccountID) : bool :=
  if bip122_IsZero a && nil_or_zero other then true
  else if bip122_IsZero a || nil_or_zero other then false
  else
    match a with
    | Some r => Generic_Equal (bip122_base r) other
    | None => false
    end.

(** [a.Equal(other)] through the interface. *)
Definition AccountID_Equal (a : AccountID) (other : option AccountID) : bool :=
  match a with
  | OfGeneric p => Generic_Equal p other
  | OfEIP155 p => eip155_Equal p other
  | OfSolana p => solana_Equal p other
  | OfBIP122 p => bip122_Equal p other
  end.

(** ** GenericAccountID (generic.go): validation *)

(** [Validate] checks if the AccountID is valid per CAIP-10. *)
Definition Generic_Validate (a : option GenericAccountID) : result unit :=
  match a with
  | None => Err ErrEmptyValue
  | Some g =>
      if negb (MatchString NamespaceRegex (namespace g)) then Err ErrInvalidNamespace
      else if String.eqb (namespace g) NamespaceEIP155 then
        let? _ := newEIP155FromReference (reference g) (address g) in Ok tt
      else if String.eqb (namespace g) NamespaceSolana then
        let? _ := NewSolanaFromBase58 (reference g) (address g) in Ok tt
      else if String.eqb (namespace g) NamespaceBIP122 then
        let? _ := NewBIP122WithValidation (reference g) (address g) in Ok tt
      else
        if negb (MatchString ReferenceRegex (reference g)) then Err ErrInvalidReference
        else if negb (MatchString AddressRegex (address g)) then Err ErrInvalidAddress
        else Ok tt
  end.

(** [NewGeneric] creates a new GenericAccountID with validation. *)
Definition NewGeneric (ns : Namespace) (ref addr : string) : result GenericAccountID :=
  let a := mkGeneric ns ref addr in
  let? _ := Generic_Validate (Some a) in
  Ok a.

(** [Validate] is promoted to every variant. *)
Definition AccountID_Validate (a : AccountID) : result unit :=
  Generic_Validate (AccountID_base a).

(** ** GenericAccountID (generic.go): codecs

    An [Unmarshal...] or [Scan] method returns the value it stores in its
    receiver ([*a = *parsed]); on an error the receiver is left as it was. *)

(** [[]byte(s)] and [string(b)] *)
Definition bytes_of (s : string) : list ascii := list_ascii_of_string s.
Definition string_of (b : list ascii) : string := string_of_list_ascii b.

Definition Generic_MarshalText (a : option GenericAccountID) : list ascii :=
  bytes_of (Generic_String a).

Definition Generic_UnmarshalText (text : list ascii) : result GenericAccountID :=
  let? (ns, ref, addr) := SplitCAIP10 (string_of text) in
  NewGeneric ns ref addr.

(** [byte(n)] and [uint16(n)] of an [int]: the low 8 and 16 bits. *)
Definition byte_of (n : nat) : ascii := ascii_of_nat (n mod 256).
Definition uint16_of (n : nat) : nat := n mod (256 * 256).

(** [binary.BigEndian.PutUint16] and [binary.BigEndian.Uint16] *)
Definition PutUint16 (v : nat) : list ascii := [byte_of (v / 256); byte_of v].
Definition Uint16 (b0 b1 : ascii) : nat := nat_of_ascii b1 + 256 * nat_of_ascii b0.

(** [MarshalBinary]: the buffer of [4+nsLen+refLen+addrLen] bytes, its
    header written at offsets 0, 1 and 2 and the three strings copied at
    offsets [4], [4+nsLen] and [4+nsLen+refLen], is the concatenation below. *)
Definition Generic_MarshalBinary (a : option GenericAccountID) : list ascii :=
  match a with
  | None => [zero; zero; zero; zero]
  | Some g =>
      let nsLen := String.length (namespace g) in
      let refLen := String.length (reference g) in
      let addrLen := String.length (address g) in
      byte_of nsLen :: byte_of refLen :: PutUint16 (uint16_of addrLen)
        ++ bytes_of (namespace g) ++ bytes_of (reference g) ++ bytes_of (address g)
  end.

(** [data[lo:hi]] *)
Definition bslice (lo hi : nat) (data : list ascii) : list ascii :=
  firstn (hi - lo) (skipn lo data).

Definition Generic_UnmarshalBinary (data : list ascii) : result GenericAccountID :=
  if (List.length data <? 4)%nat then Err ErrInvalidFormat
  else
    let nsLen := nat_of_ascii (nth 0 data zero) in
    let refLen := nat_of_ascii (nth 1 data zero) in
    let addrLen := Uint16 (nth 2 data zero) (nth 3 data zero) in
    let expectedLen := 4 + nsLen + refLen + addrLen in
    if negb (Nat.eqb (List.length data) expectedLen) then Err ErrInvalidFormat
    else
      let offset := 4 in
      let ns := string_of (bslice offset (offset + nsLen) data) in
      let offset := offset + nsLen in
      let ref := string_of (bslice offset (offset + refLen) data) in
      let offset := offset + refLen in
      let addr := string_of (bslice offset (offset + addrLen) data) in
      NewGeneric ns ref addr.

(** The double quote character. *)
Definition dquote : ascii := ascii_of_nat 34.

Definition Generic_MarshalJSON (a : option GenericAccountID) : list ascii :=
  if Generic_IsZero a then [dquote; dquote]
  else bytes_of (String dquote (Generic_String a ++ String dquote EmptyString)).

Definition Generic_UnmarshalJSON (data : list ascii) : result GenericAccountID :=
  if String.eqb (string_of data) "null" then Ok Generic_zero
  else if (List.length data <? 2)%nat
          || negb (Ascii.eqb (nth 0 data zero) dquote)
          || negb (Ascii.eqb (nth (List.length data - 1) data zero) dquote)
  then Err ErrInvalidFormat
  else
    let s := string_of (bslice 1 (List.length data - 1) data) in
    if String.eqb s "" then Ok Generic_zero
    else Generic_UnmarshalText (bytes_of s).

(** The dynamic values the SQL methods exchange: [driver.Value] and the
    source of [Scan]. *)
Inductive any : Type :=
| AnyNil
| AnyString (v : string)
| AnyBytes (v : list ascii)
| AnyOther.   (* a value of any other type *)

Definition Generic_Value (a : option GenericAccountID) : any :=
  if Generic_IsZero a then AnyNil
  else AnyString (Generic_String a).

Definition Generic_Scan (src : any) : result GenericAccountID :=
  match src with
  | AnyNil => Ok Generic_zero
  | AnyString v =>
      if String.eqb v "" then Ok Generic_zero
      else Generic_UnmarshalText (bytes_of v)
  | AnyBytes v =>
      if Nat.eqb (List.length v) 0 then Ok Generic_zero
      else Generic_UnmarshalText v
  | AnyOther => Err ErrOther
  end.

(** ** Parsers and the registry (interface.go) *)

(** The implementations of the [Parser] interface. *)
Inductive Parser : Type :=
| eip155Parser
| solanaParser
| bip122Parser
| GenericParser (ns : Namespace).

Definition Parser_Namespace (p : Parser) : Namespace :=
  match p with
  | eip155Parser => NamespaceEIP155
  | solanaParser => NamespaceSolana
  | bip122Parser => NamespaceBIP122
  | GenericParser ns => ns
  end.

Definition Parser_ParseAddress (p : Parser) (ref addr : string) : result AccountID :=
  match p with
  | eip155Parser =>
      let? a := newEIP155FromReference ref addr in Ok (OfEIP155 (Some a))
  | solanaParser =>
      let? a := NewSolanaFromBase58 ref addr in Ok (OfSolana (Some a))
  | bip122Parser => Ok (OfBIP122 (Some (NewBIP122 ref addr)))
  | GenericParser ns =>
      let? a := NewGeneric ns ref addr in Ok (OfGeneric (Some a))
  end.

Definition Parser_Parse (p : Parser) (s : string) : result AccountID :=
  let? (ns, ref, addr) := SplitCAIP10 s in
  if negb (String.eqb ns (Parser_Namespace p)) then Err ErrInvalidNamespace
  else Parser_ParseAddress p ref addr.

(** [registry] holds namespace-specific parsers; it is the state that
    [RegisterParser] updates and the parsing functions read. *)
Abbreviation registry := (gmap string Parser).

(** [RegisterParser] registers a parser for a namespace. *)
Definition RegisterParser (p : Parser) (r : registry) : registry :=
  <[Parser_Namespace p := p]> r.

(** [GetParser] returns the parser for a namespace. *)
Definition GetParser (r : registry) (ns : Namespace) : option Parser :=
  r !! ns.

(** The registry once the [init] functions of the three variants have run. *)
Definition init_registry : registry :=
  RegisterParser solanaParser (RegisterParser eip155Parser (RegisterParser bip122Parser ∅)).

(** [Parse] parses a CAIP-10 string into an AccountID, selecting the parser
    by namespace. *)
Definition Parse (r : registry) (s : string) : result AccountID :=
  let? (ns, ref, addr) := SplitCAIP10 s in
  match r !! ns with
  | Some p => Parser_ParseAddress p ref addr
  | None => let? a := NewGeneric ns ref addr in Ok (OfGeneric (Some a))
  end.

(** [ParseWithNamespace] parses using a specific namespace parser. *)
Definition ParseWithNamespace (r : registry) (ns : Namespace) (ref addr : string)
  : result AccountID :=
  match r !! ns with
  | Some p => Parser_ParseAddress p ref addr
  | None => let? a := NewGeneric ns ref addr in Ok (OfGeneric (Some a))
  end.

(** [Equal] compares two AccountIDs for equality. *)
Definition Equal (a b : option AccountID) : bool :=
  match a, b with
  | None, None => true
  | None, _ | _, None => false
  | Some a', _ => AccountID_Equal a' b
  end.

(** ** Setters of the variants (eip155.go, solana.go, bip122.go) *)

(** [SetChainID] returns a new EIP155AccountID with the given (non-nil)
    chain id; [None] is the nil result for a nil receiver. *)
Definition eip155_SetChainID (a : option eip155AccountID) (c : Z)
  : option eip155AccountID :=
  match a with
  | None => None
  | Some r => Some (NewEIP155 (OfBigInt c) (ethAddr r))
  end.

(** [SetAddress] returns a new EIP155AccountID with the given address. It
    hands the stored chain id to [NewEIP155], which dereferences it. *)
Definition eip155_SetAddress (a : option eip155AccountID) (addr : Address)
  : outcome (option eip155AccountID) :=
  match a with
  | None => Returns None
  | Some r =>
      match chainID r with
      | Some c => Returns (Some (NewEIP155 (OfBigInt c) addr))
      | None => Panics
      end
  end.

(** [ValidateSolanaAddressLoose] validates a Solana address without the
    ed25519 curve check. *)
Definition ValidateSolanaAddressLoose (base58Address : string) : result unit :=
  if negb (MatchString solanaAddressRegex base58Address) then Err ErrInvalidAddress
  else
    match NewPublicKey base58Address with
    | None => Err ErrInvalidAddress
    | Some addr =>
        if negb (Nat.eqb (List.length (PublicKey_Bytes addr)) SolanaAddressLength)
        then Err ErrInvalidAddress
        else Ok tt
    end.

(** [SetAccount] returns a new SolanaAccountID with the given account. *)
Definition solana_SetAccount (a : option solanaAccountID) (account : PublicKey)
  : option solanaAccountID :=
  match a with
  | None => None
  | Some r => Some (NewSolana (Generic_Reference (solana_base r)) account)
  end.

(** [ValidateBIP122AddressLoose] validates an address against the generic
    BIP122 pattern. *)
Definition ValidateBIP122AddressLoose (addr : string) : result unit :=
  if Nat.eqb (String.length addr) 0 then Err ErrInvalidAddress
  else if negb (MatchString genericBIP122AddressRegex addr) then Err ErrInvalidAddress
  else Ok tt.

(** [Network] returns the BIP122 network. *)
Definition bip122_Network (a : option bip122AccountID) : BIP122Network :=
  match a with
  | None => ""
  | Some r => network r
  end.

(** [SetAddress] returns a new BIP122AccountID with the given address. *)
Definition bip122_SetAddress (a : option bip122AccountID) (addr : string)
  : option bip122AccountID :=
  match a with
  | None => None
  | Some r => Some (NewBIP122 (network r) addr)
  end.

(** ** Column projections (interface.go, generic.go) *)

(** [AccountIDColumns] stores an AccountID as three columns. *)
Record AccountIDColumns : Type := mkColumns {
  col_Namespace : string;
  col_Reference : string;
  col_Address : string
}.

(** [AccountIDColumnsCompact] stores it as a chain id and an address. *)
Record AccountIDColumnsCompact : Type := mkCompact {
  cc_ChainID : string;
  cc_Address : string
}.

Definition Columns_ToAccountID (r : registry) (c : AccountIDColumns) : result AccountID :=
  ParseWithNamespace r (col_Namespace c) (col_Reference c) (col_Address c).

Definition Columns_IsZero (c : AccountIDColumns) : bool :=
  String.eqb (col_Namespace c) "" && String.eqb (col_Reference c) ""
  && String.eqb (col_Address c) "".

Definition Columns_String (c : AccountIDColumns) : string :=
  if Columns_IsZero c then ""
  else col_Namespace c ++ ":" ++ col_Reference c ++ ":" ++ col_Address c.

Definition Columns_Validate (r : registry) (c : AccountIDColumns) : result unit :=
  let? _ := Columns_ToAccountID r c in Ok tt.

Definition Columns_ToCompact (c : AccountIDColumns) : AccountIDColumnsCompact :=
  if Columns_IsZero c then mkCompact "" ""
  else mkCompact (col_Namespace c ++ ":" ++ col_Reference c) (col_Address c).

Definition Compact_IsZero (c : AccountIDColumnsCompact) : bool :=
  String.eqb (cc_ChainID c) "" && String.eqb (cc_Address c) "".

Definition Compact_ToAccountID (r : registry) (c : AccountIDColumnsCompact)
  : result AccountID :=
  if Compact_IsZero c then Err ErrEmptyValue
  else Parse r (cc_ChainID c ++ ":" ++ cc_Address c).

Definition Compact_String (c : AccountIDColumnsCompact) : string :=
  if Compact_IsZero c then ""
  else cc_ChainID c ++ ":" ++ cc_Address c.

Definition Compact_ToFull (c : AccountIDColumnsCompact) : result AccountIDColumns :=
  if Compact_IsZero c then Ok (mkColumns "" "" "")
  else
    let? (ns, ref) := SplitCAIP2 (cc_ChainID c) in
    Ok (mkColumns ns ref (cc_Address c)).

(** [ToColumns] and [ToColumnsCompact] of [*GenericAccountID], promoted to
    every variant. *)
Definition Generic_ToColumns (a : option GenericAccountID) : AccountIDColumns :=
  match a with
  | None => mkColumns "" "" ""
  | Some g => mkColumns (namespace g) (reference g) (address g)
  end.

Definition Generic_ToColumnsCompact (a : option GenericAccountID) : AccountIDColumnsCompact :=
  match a with
  | None => mkCompact "" ""
  | Some g => mkCompact (ChainID_String (Generic_ChainID a)) (address g)
  end.

(** [ToNative] converts a GenericAccountID to its namespace-specific type;
    [None] is the nil result for a nil receiver. *)
Definition Generic_ToNative (r : registry) (a : option GenericAccountID) : option AccountID :=
  match a with
  | None => None
  | Some g =>
      match r !! namespace g with
      | Some p =>
          match Parser_ParseAddress p (reference g) (address g) with
          | Ok native => Some native
          | Err _ => Some (OfGeneric a)
          end
      | None => Some (OfGeneric a)
      end
  end.

(** [ParseWithChainID] parses using a chain id string and an address. *)
Definition ParseWithChainID (r : registry) (chain addr : string) : result AccountID :=
  Parse r (chain ++ ":" ++ addr).

(** ** ChainID (chain_id.go): conversion and codecs *)

(** [ToAccountID] creates an AccountID from this ChainID and an address. *)
Definition ChainID_ToAccountID (r : registry) (c : ChainID) (addr : string)
  : result AccountID :=
  ParseWithNamespace r (chain_Namespace c) (chain_Reference c) addr.

Definition ChainID_MarshalText (c : ChainID) : list ascii :=
  bytes_of (ChainID_String c).

Definition ChainID_UnmarshalText (text : list ascii) : result ChainID :=
  if Nat.eqb (List.length text) 0 then Ok ChainID_zero
  else ParseChainID (string_of text).

Definition ChainID_MarshalBinary (c : ChainID) : list ascii :=
  bytes_of (ChainID_String c).

Definition ChainID_UnmarshalBinary (data : list ascii) : result ChainID :=
  ChainID_UnmarshalText data.

Definition ChainID_UnmarshalJSON (data : list ascii) : result ChainID :=
  if String.eqb (string_of data) "null" then Ok ChainID_zero
  else if (List.length data <? 2)%nat
          || negb (Ascii.eqb (nth 0 data zero) dquote)
          || negb (Ascii.eqb (nth (List.length data - 1) data zero) dquote)
  then Err ErrOther
  else
    let s := string_of (bslice 1 (List.length data - 1) data) in
    if String.eqb s "" then Ok ChainID_zero
    else ChainID_UnmarshalText (bytes_of s).

Definition ChainID_Value (c : ChainID) : any :=
  if ChainID_IsZero c then AnyNil
  else AnyString (ChainID_String c).

Definition ChainID_Scan (src : any) : result ChainID :=
  match src with
  | AnyString v =>
      if String.eqb v "" then Ok ChainID_zero
      else ChainID_UnmarshalText (bytes_of v)
  | AnyBytes v =>
      if Nat.eqb (List.length v) 0 then Ok ChainID_zero
      else ChainID_UnmarshalText v
  | AnyNil => Ok ChainID_zero
  | AnyOther => Err ErrOther
  end.

End Identifiers.

Abbreviation registry := (gmap string Parser).

(** ** Notions used to state the properties *)

(** The namespaces [validateReference] knows. *)
Definition builtin_namespace (ns : Namespace) : bool :=
  String.eqb ns NamespaceEIP155 || String.eqb ns NamespaceSolana
  || String.eqb ns NamespaceBIP122.

(** The [init] functions have run: the three variants are registered. *)
Definition builtins_registered (r : registry) : Prop :=
  r !! NamespaceEIP155 = Some eip155Parser
  /\ r !! NamespaceSolana = Some solanaParser
  /\ r !! NamespaceBIP122 = Some bip122Parser.

(** Two identifiers with the same namespace, reference and address. *)
Definition same_fields {X : External} (a b : AccountID) : Prop :=
  AccountID_Namespace a = AccountID_Namespace b
  /\ AccountID_Reference a = AccountID_Reference b
  /\ AccountID_Address a = AccountID_Address b.

(** A run of [n] copies of a character, to write long inputs. *)
Fixpoint srepeat (c : ascii) (n : nat) : string :=
  match n with
  | 0 => EmptyString
  | S n' => String c (srepeat c n')
  end.

(** ** Running the definitions

    An instance of the external collaborators in which an address or a key
    is the text it was read from. It serves to evaluate the definitions on
    concrete inputs whose validation never reaches a collaborator. *)
Definition plain_external : External := {|
  Address := string;
  HexToAddress := fun s => s;
  Address_Hex := fun a => a;
  PublicKey := string;
  NewPublicKey := fun s => Some s;
  PublicKey_Bytes := bytes_of;
  PublicKey_String := fun k => k
|}.

(** Every parser of the registry sits under its own namespace, as
    [RegisterParser] files it. *)
Definition registry_wf (r : registry) : Prop :=
  forall ns p, r !! ns = Some p -> Parser_Namespace p = ns.

(** What the package relies on from its collaborators when it reads back a
    string it has written: decoding the hex form of an address gives the
    address, and the base58 form of a 32-byte key that was decoded from a
    well-formed string is itself well formed and decodes to the key. *)
Definition hex_codec_law {X : External} : Prop :=
  forall x : Address, HexToAddress (Address_Hex x) = x.

Definition base58_codec_law {X : External} : Prop :=
  forall (s : string) (pk : PublicKey),
    MatchString solanaAddressRegex s = true ->
    NewPublicKey s = Some pk ->
    List.length (PublicKey_Bytes pk) = 32 ->
    MatchString solanaAddressRegex (PublicKey_String pk) = true
    /\ NewPublicKey (PublicKey_String pk) = Some pk.

(** * Properties *)

(** ** Slices and colons *)

Lemma stake_app (a b : string) : stake (String.length a) (a ++ b) = a.
Proof. induction a as [|c a IH]; simpl; [now destruct b | now rewrite IH]. Qed.

Lemma sdrop_app (a b : string) : sdrop (String.length a) (a ++ b) = b.
Proof. induction a as [|c a IH]; simpl; auto. Qed.

Lemma stake_all (s : string) : stake (String.length s) s = s.
Proof. induction s as [|c s IH]; simpl; [reflexivity | now rewrite IH]. Qed.

Lemma stake_sdrop (n : nat) (s : string) : stake n s ++ sdrop n s = s.
Proof.
  revert s; induction n as [|n IH]; intros [|c s]; simpl; auto.
  now rewrite IH.
Qed.

Lemma slength_app (a b : string) :
  String.length (a ++ b) = String.length a + String.length b.
Proof. induction a as [|c a IH]; simpl; auto. Qed.

Lemma length_stake (n : nat) (s : string) :
  n <= String.length s -> String.length (stake n s) = n.
Proof.
  revert s; induction n as [|n IH]; intros [|c s]; simpl; intros H; try lia.
  rewrite IH; lia.
Qed.

Lemma sdrop_0 (s : string) : sdrop 0 s = s.
Proof. now destruct s. Qed.

Lemma sapp_assoc (a b c : string) : (a ++ b) ++ c = a ++ (b ++ c).
Proof. induction a as [|x a IH]; simpl; [reflexivity | now rewrite IH]. Qed.

Lemma sapp_nil_r (a : string) : a ++ "" = a.
Proof. induction a as [|x a IH]; simpl; [reflexivity | now rewrite IH]. Qed.

Lemma colons_app (a b : string) : colons (a ++ b) = colons a + colons b.
Proof. induction a as [|c a IH]; simpl; [reflexivity | rewrite IH; lia]. Qed.

Lemma has_colon_colons (s : string) : has_colon s = negb (Nat.eqb (colons s) 0).
Proof.
  induction s as [|c s IH]; simpl; [reflexivity|].
  destruct (Ascii.eqb c colon); simpl; auto.
Qed.

Lemma skip_to_colon_le (s : string) : skip_to_colon s <= String.length s.
Proof.
  induction s as [|c s IH]; simpl; [lia|].
  destruct (Ascii.eqb c colon); lia.
Qed.

(** The loop stops at the end of the string exactly when no colon is left. *)
Lemma skip_to_colon_end (s : string) :
  skip_to_colon s = String.length s <-> colons s = 0.
Proof.
  induction s as [|c s IH]; simpl; [tauto|].
  destruct (Ascii.eqb c colon); simpl; [split; lia|].
  rewrite <- IH. split; lia.
Qed.

(** Otherwise it stops on the first colon: the string splits there. *)
Lemma skip_to_colon_split (s : string) :
  skip_to_colon s < String.length s ->
  s = stake (skip_to_colon s) s ++ ":" ++ sdrop (S (skip_to_colon s)) s
  /\ colons (stake (skip_to_colon s) s) = 0.
Proof.
  induction s as [|c s IH]; simpl; [lia|].
  destruct (Ascii.eqb_spec c colon) as [->|Hne]; simpl.
  - intros _. split; reflexivity.
  - intros H. destruct IH as [IH1 IH2]; [lia|].
    destruct (Ascii.eqb_spec c colon); [contradiction|].
    split; [f_equal; exact IH1 | exact IH2].
Qed.

Lemma skip_to_colon_app (a b : string) :
  colons a = 0 -> skip_to_colon (a ++ ":" ++ b) = String.length a.
Proof.
  induction a as [|c a IH]; simpl; [reflexivity|].
  destruct (Ascii.eqb c colon); simpl; [lia|].
  intros H. f_equal. now apply IH.
Qed.

Lemma colons_0_length_0 (s : string) : String.length s = 0 -> s = "".
Proof. now destruct s. Qed.

(** ** Bounded repetition of a character class *)

Lemma all_in_app (p : ascii -> bool) (a b : string) :
  all_in p (a ++ b) = all_in p a && all_in p b.
Proof.
  induction a as [|c a IH]; simpl; [reflexivity|].
  now rewrite IH, andb_assoc.
Qed.

Lemma length_sdrop (n : nat) (s : string) :
  String.length (sdrop n s) = String.length s - n.
Proof.
  revert s; induction n as [|n IH]; intros [|c s]; simpl; auto.
Qed.

Lemma matchk_rpow_class (p : ascii -> bool) (n : nat) (s : string) (k : string -> bool) :
  matchk (rpow n (RClass p)) s k
  = (n <=? String.length s)%nat && all_in p (stake n s) && k (sdrop n s).
Proof.
  revert s; induction n as [|n IH]; intros s.
  - destruct s; reflexivity.
  - destruct s as [|c t]; [reflexivity|].
    cbn [rpow matchk stake sdrop all_in String.length]. rewrite IH.
    change (S n <=? S (String.length t))%nat with (n <=? String.length t)%nat.
    destruct (p c), (n <=? String.length t)%nat; reflexivity.
Qed.

Lemma matchk_rupto_class (p : ascii -> bool) (n : nat) (s : string) :
  matchk (rupto n (RClass p)) s is_empty
  = (String.length s <=? n)%nat && all_in p s.
Proof.
  revert s; induction n as [|n IH]; intros s.
  - destruct s; reflexivity.
  - destruct s as [|c t]; [reflexivity|].
    cbn [rupto matchk all_in String.length is_empty]. rewrite IH, orb_false_r.
    change (S (String.length t) <=? S n)%nat with (String.length t <=? n)%nat.
    destruct (p c), (String.length t <=? n)%nat; reflexivity.
Qed.

(** [^[class]{lo,hi}$] accepts exactly the strings of [lo] to [hi]
    characters, all of the class. *)
Lemma MatchString_RRep_class (p : ascii -> bool) (lo hi : nat) (s : string) :
  lo <= hi ->
  MatchString (RRep lo hi (RClass p)) s = true
  <-> lo <= String.length s <= hi /\ all_in p s = true.
Proof.
  intros Hle. unfold MatchString, RRep. cbn [matchk].
  rewrite matchk_rpow_class, matchk_rupto_class, length_sdrop.
  assert (Hs : all_in p s = all_in p (stake lo s) && all_in p (sdrop lo s))
    by (now rewrite <- all_in_app, stake_sdrop).
  rewrite Hs.
  rewrite !andb_true_iff, !Nat.leb_le. split.
  - intros [[H1 H2] [H3 H4]]. repeat split; auto; lia.
  - intros [[H1 H2] [H3 H4]]. repeat split; auto; lia.
Qed.

Lemma all_in_no_colon (p : ascii -> bool) (s : string) :
  p colon = false -> all_in p s = true -> colons s = 0.
Proof.
  intros Hp. induction s as [|c s IH]; simpl; [reflexivity|].
  intros [Hc Hs]%andb_true_iff.
  destruct (Ascii.eqb_spec c colon) as [->|_]; [congruence|]. now apply IH.
Qed.

(** A namespace, a generic reference and a generic address hold no colon. *)
Lemma NamespaceRegex_no_colon (s : string) :
  MatchString NamespaceRegex s = true -> colons s = 0.
Proof.
  intros H. apply MatchString_RRep_class in H; [|lia].
  now apply (all_in_no_colon namespace_class).
Qed.

Lemma ReferenceRegex_no_colon (s : string) :
  MatchString ReferenceRegex s = true -> colons s = 0.
Proof.
  intros H. apply MatchString_RRep_class in H; [|lia].
  now apply (all_in_no_colon reference_class).
Qed.

Lemma AddressRegex_no_colon (s : string) :
  MatchString AddressRegex s = true -> colons s = 0.
Proof.
  intros H. apply MatchString_RRep_class in H; [|lia].
  now apply (all_in_no_colon address_class).
Qed.

Lemma NamespaceRegex_length (s : string) :
  MatchString NamespaceRegex s = true -> 3 <= String.length s <= 8.
Proof.
  intros H. apply MatchString_RRep_class in H; [tauto|lia].
Qed.

(** ** Properties of the splitters *)

Lemma colons_split (s : string) :
  1 <= colons s ->
  exists a b, s = a ++ ":" ++ b /\ colons a = 0 /\ String.length a = skip_to_colon s.
Proof.
  intros H.
  assert (Hlt : skip_to_colon s < String.length s).
  { pose proof (skip_to_colon_le s). pose proof (skip_to_colon_end s). lia. }
  destruct (skip_to_colon_split s Hlt) as [Hs H0].
  exists (stake (skip_to_colon s) s), (sdrop (S (skip_to_colon s)) s).
  repeat split; auto. apply length_stake; lia.
Qed.

Lemma SplitCAIP10_parts (ns ref addr : string) :
  colons ns = 0 -> colons ref = 0 ->
  SplitCAIP10 (ns ++ ":" ++ ref ++ ":" ++ addr) = Ok (ns, ref, addr).
Proof.
  intros Hns Href. unfold SplitCAIP10, scan_colon, slice.
  set (s := ns ++ ":" ++ ref ++ ":" ++ addr).
  assert (Hlen : String.length s
                 = String.length ns + S (String.length ref + S (String.length addr))).
  { unfold s. rewrite !slength_app. simpl. lia. }
  destruct (Nat.eqb_spec (String.length s) 0) as [E|_]; [lia|].
  rewrite sdrop_0. simpl.
  assert (Hi : skip_to_colon s = String.length ns) by (apply skip_to_colon_app; auto).
  rewrite Hi.
  assert (Hst : stake (String.length ns) s = ns) by apply stake_app.
  rewrite Hst.
  destruct (Nat.leb_spec (String.length s) (String.length ns)) as [E|_]; [lia|].
  assert (Hd : sdrop (String.length ns + 1) s = ref ++ ":" ++ addr).
  { replace (String.length ns + 1) with (String.length (ns ++ ":"))
      by (rewrite slength_app; reflexivity).
    unfold s. rewrite <- (sapp_assoc ns ":"). apply sdrop_app. }
  rewrite Hd, (skip_to_colon_app ref addr Href).
  destruct (Nat.leb_spec (String.length s)
              (String.length ns + 1 + String.length ref)) as [E|_]; [lia|].
  replace (String.length ns + 1 + String.length ref - (String.length ns + 1))
    with (String.length ref) by lia.
  rewrite stake_app.
  replace (String.length ns + 1 + String.length ref + 1)
    with (String.length (ns ++ ":" ++ ref ++ ":")).
  2:{ rewrite !slength_app. simpl. lia. }
  unfold s.
  replace (ns ++ ":" ++ ref ++ ":" ++ addr) with ((ns ++ ":" ++ ref ++ ":") ++ addr).
  2:{ now rewrite !sapp_assoc. }
  rewrite sdrop_app. reflexivity.
Qed.

Lemma length_0_empty (s : string) : Nat.eqb (String.length s) 0 = true <-> s = "".
Proof. destruct s; simpl; split; congruence. Qed.

Lemma SplitCAIP10_no_colon (s : string) :
  s <> "" -> colons s = 0 -> SplitCAIP10 s = Err ErrInvalidFormat.
Proof.
  intros Hne H0. unfold SplitCAIP10, scan_colon.
  destruct (Nat.eqb (String.length s) 0) eqn:E; [apply length_0_empty in E; contradiction|].
  rewrite sdrop_0. apply skip_to_colon_end in H0. rewrite H0. simpl.
  now rewrite Nat.leb_refl.
Qed.

Lemma sdrop_after_colon (a b : string) :
  sdrop (String.length a + 1) (a ++ ":" ++ b) = b.
Proof.
  replace (String.length a + 1) with (String.length (a ++ ":"))
    by (rewrite slength_app; reflexivity).
  rewrite <- (sapp_assoc a ":"). apply sdrop_app.
Qed.

Lemma SplitCAIP10_one_colon (a b : string) :
  colons a = 0 -> colons b = 0 -> SplitCAIP10 (a ++ ":" ++ b) = Err ErrInvalidFormat.
Proof.
  intros Ha Hb. unfold SplitCAIP10, scan_colon.
  set (s := a ++ ":" ++ b).
  assert (Hlen : String.length s = String.length a + S (String.length b)).
  { unfold s. rewrite !slength_app. simpl. lia. }
  destruct (Nat.eqb_spec (String.length s) 0) as [E|_]; [lia|].
  rewrite sdrop_0. simpl.
  assert (Hi : skip_to_colon s = String.length a) by (now apply skip_to_colon_app).
  rewrite Hi.
  destruct (Nat.leb_spec (String.length s) (String.length a)) as [E|_]; [lia|].
  unfold s. rewrite sdrop_after_colon.
  apply skip_to_colon_end in Hb. rewrite Hb.
  destruct (Nat.leb_spec (String.length (a ++ ":" ++ b))
              (String.length a + 1 + String.length b)) as [_|E]; [reflexivity|].
  fold s in E. lia.
Qed.

(** What [SplitCAIP10] returns, by the shape of its result. *)
Lemma SplitCAIP10_cases (s : string) :
  match SplitCAIP10 s with
  | Err ErrEmptyValue => s = ""
  | Err ErrInvalidFormat => s <> "" /\ colons s < 2
  | Err _ => False
  | Ok (ns, ref, addr) =>
      s = ns ++ ":" ++ ref ++ ":" ++ addr /\ colons ns = 0 /\ colons ref = 0
  end.
Proof.
  destruct s as [|c0 s0] eqn:Es; [reflexivity|]. rewrite <- Es.
  assert (Hne : s <> "") by (rewrite Es; discriminate).
  clear Es c0 s0.
  destruct (colons s) as [|n] eqn:Hc.
  - rewrite SplitCAIP10_no_colon by assumption. split; [assumption | lia].
  - destruct (colons_split s) as (a & b & -> & Ha & _); [lia|].
    rewrite colons_app in Hc. simpl in Hc.
    destruct (colons b) as [|m] eqn:Hb.
    + rewrite SplitCAIP10_one_colon by assumption.
      split; [assumption | lia].
    + destruct (colons_split b) as (r & d & -> & Hr & _); [lia|].
      rewrite SplitCAIP10_parts by assumption. auto.
Qed.

Lemma SplitCAIP2_no_colon (s : string) :
  s <> "" -> colons s = 0 -> SplitCAIP2 s = Err ErrInvalidFormat.
Proof.
  intros Hne H0. unfold SplitCAIP2, scan_colon.
  destruct (Nat.eqb (String.length s) 0) eqn:E; [apply length_0_empty in E; contradiction|].
  rewrite sdrop_0. apply skip_to_colon_end in H0. rewrite H0. simpl.
  now rewrite Nat.leb_refl.
Qed.

Lemma SplitCAIP2_colon (a b : string) :
  colons a = 0 ->
  SplitCAIP2 (a ++ ":" ++ b)
  = if has_colon b then Err ErrInvalidFormat else Ok (a, b).
Proof.
  intros Ha. unfold SplitCAIP2, scan_colon.
  set (s := a ++ ":" ++ b).
  assert (Hlen : String.length s = String.length a + S (String.length b)).
  { unfold s. rewrite !slength_app. simpl. lia. }
  destruct (Nat.eqb_spec (String.length s) 0) as [E|_]; [lia|].
  rewrite sdrop_0. simpl.
  assert (Hi : skip_to_colon s = String.length a) by (now apply skip_to_colon_app).
  rewrite Hi.
  destruct (Nat.leb_spec (String.length s) (String.length a)) as [E|_]; [lia|].
  unfold s. now rewrite sdrop_after_colon, stake_app.
Qed.

Lemma SplitCAIP2_cases (s : string) :
  match SplitCAIP2 s with
  | Err ErrEmptyValue => s = ""
  | Err ErrInvalidFormat => s <> "" /\ colons s <> 1
  | Err _ => False
  | Ok (ns, ref) => s = ns ++ ":" ++ ref /\ colons ns = 0 /\ colons ref = 0
  end.
Proof.
  destruct s as [|c0 s0] eqn:Es; [reflexivity|]. rewrite <- Es.
  assert (Hne : s <> "") by (rewrite Es; discriminate).
  clear Es c0 s0.
  destruct (colons s) as [|n] eqn:Hc.
  - rewrite SplitCAIP2_no_colon by assumption. split; [assumption | lia].
  - destruct (colons_split s) as (a & b & -> & Ha & _); [lia|].
    rewrite colons_app in Hc. simpl in Hc.
    rewrite SplitCAIP2_colon, has_colon_colons by assumption.
    destruct (Nat.eqb_spec (colons b) 0) as [Hb|Hb]; simpl.
    + auto.
    + split; [assumption | lia].
Qed.

(** C4. [SplitCAIP10] fails with [ErrEmptyValue] exactly on the empty
    string and with [ErrInvalidFormat] exactly on a non-empty string with
    fewer than two colons; on any other string it returns the text before
    the first colon, the text between the first two colons and the whole
    remainder after the second colon (which may hold colons). [SplitCAIP2]
    fails with [ErrEmptyValue] exactly on the empty string and with
    [ErrInvalidFormat] exactly on a non-empty string whose number of colons
    is not one, so also whenever the reference part holds a colon; on a
    string with one colon it returns the two sides. *)
Theorem split_spec (s : string) :
  (SplitCAIP10 s = Err ErrEmptyValue <-> s = "")
  /\ (SplitCAIP10 s = Err ErrInvalidFormat <-> s <> "" /\ colons s < 2)
  /\ (2 <= colons s ->
      exists ns ref addr,
        s = ns ++ ":" ++ ref ++ ":" ++ addr /\ colons ns = 0 /\ colons ref = 0
        /\ SplitCAIP10 s = Ok (ns, ref, addr))
  /\ (SplitCAIP2 s = Err ErrEmptyValue <-> s = "")
  /\ (SplitCAIP2 s = Err ErrInvalidFormat <-> s <> "" /\ colons s <> 1)
  /\ (colons s = 1 ->
      exists ns ref,
        s = ns ++ ":" ++ ref /\ colons ns = 0 /\ colons ref = 0
        /\ SplitCAIP2 s = Ok (ns, ref)).
Proof.
  pose proof (SplitCAIP10_cases s) as H10.
  pose proof (SplitCAIP2_cases s) as H2.
  assert (Hcol3 : forall a b c, colons a = 0 -> colons b = 0 ->
            colons (a ++ ":" ++ b ++ ":" ++ c) = 2 + colons c).
  { intros a b c Ha Hb. rewrite !colons_app. simpl. lia. }
  assert (Hcol2 : forall a b, colons a = 0 -> colons b = 0 ->
            colons (a ++ ":" ++ b) = 1).
  { intros a b Ha Hb. rewrite !colons_app. simpl. lia. }
  repeat split.
  - intros E. now rewrite E in H10.
  - intros ->. reflexivity.
  - rewrite H in H10. tauto.
  - rewrite H in H10. tauto.
  - intros [Hne Hc].
    destruct (SplitCAIP10 s) as [[[ns ref] addr]|[]]; try tauto.
    destruct H10 as (-> & Hn & Hr). rewrite Hcol3 in Hc by assumption. lia.
  - intros Hc.
    destruct (SplitCAIP10 s) as [[[ns ref] addr]|[]]; try tauto.
    + exists ns, ref, addr. tauto.
    + lia.
    + subst s. simpl in Hc. lia.
  - intros E. now rewrite E in H2.
  - intros ->. reflexivity.
  - rewrite H in H2. tauto.
  - rewrite H in H2. tauto.
  - intros [Hne Hc].
    destruct (SplitCAIP2 s) as [[ns ref]|[]]; try tauto.
    destruct H2 as (-> & Hn & Hr). rewrite Hcol2 in Hc by assumption. lia.
  - intros Hc.
    destruct (SplitCAIP2 s) as [[ns ref]|[]]; try tauto.
    + exists ns, ref. tauto.
    + subst s. simpl in Hc. lia.
Qed.

(** ** The binary codec *)

Lemma length_bytes_of (s : string) : List.length (bytes_of s) = String.length s.
Proof. induction s as [|c s IH]; simpl; auto. Qed.

Lemma string_of_bytes_of (s : string) : string_of (bytes_of s) = s.
Proof. apply string_of_list_ascii_of_string. Qed.

Lemma bytes_of_string_of (b : list ascii) : bytes_of (string_of b) = b.
Proof. apply list_ascii_of_string_of_list_ascii. Qed.

Lemma nat_of_byte_of (n : nat) : nat_of_ascii (byte_of n) = n mod 256.
Proof.
  unfold byte_of. apply nat_ascii_embedding.
  apply Nat.mod_upper_bound. discriminate.
Qed.

Lemma Uint16_PutUint16 (v : nat) :
  Uint16 (byte_of (v / 256)) (byte_of v) = v mod (256 * 256).
Proof.
  unfold Uint16. rewrite !nat_of_byte_of.
  rewrite (Nat.Div0.mod_mul_r v 256 256). lia.
Qed.

Section Binary.

Context {X : External}.

(** What [MarshalBinary] writes, and where. *)
Lemma MarshalBinary_layout (g : GenericAccountID) :
  let nsLen := String.length (namespace g) in
  let refLen := String.length (reference g) in
  let addrLen := String.length (address g) in
  let out := Generic_MarshalBinary (Some g) in
  List.length out = 4 + nsLen + refLen + addrLen
  /\ nat_of_ascii (nth 0 out zero) = nsLen mod 256
  /\ nat_of_ascii (nth 1 out zero) = refLen mod 256
  /\ Uint16 (nth 2 out zero) (nth 3 out zero) = addrLen mod (256 * 256)
  /\ bslice 4 (4 + nsLen) out = bytes_of (namespace g)
  /\ bslice (4 + nsLen) (4 + nsLen + refLen) out = bytes_of (reference g)
  /\ bslice (4 + nsLen + refLen) (4 + nsLen + refLen + addrLen) out
     = bytes_of (address g).
Proof.
  destruct g as [ns ref addr]. cbn zeta. unfold Generic_MarshalBinary, PutUint16.
  cbn [namespace reference address List.app nth].
  set (h0 := byte_of (String.length ns)).
  set (h1 := byte_of (String.length ref)).
  set (h2 := byte_of (uint16_of (String.length addr) / 256)).
  set (h3 := byte_of (uint16_of (String.length addr))).
  repeat split.
  - cbn [List.length]. rewrite !length_app, !length_bytes_of. lia.
  - apply nat_of_byte_of.
  - apply nat_of_byte_of.
  - unfold h2, h3. rewrite Uint16_PutUint16. unfold uint16_of.
    apply Nat.Div0.mod_mod.
  - unfold bslice. cbn [skipn].
    replace (4 + String.length ns - 4) with (List.length (bytes_of ns))
      by (rewrite length_bytes_of; lia).
    apply take_app_length.
  - unfold bslice.
    change (h0 :: h1 :: h2 :: h3 :: bytes_of ns ++ bytes_of ref ++ bytes_of addr)
      with ([h0; h1; h2; h3] ++ bytes_of ns ++ bytes_of ref ++ bytes_of addr)%list.
    rewrite app_assoc.
    rewrite (drop_app_length' ([h0; h1; h2; h3] ++ bytes_of ns)%list)
      by (rewrite length_app, length_bytes_of; reflexivity).
    apply take_app_length'. rewrite length_bytes_of. lia.
  - unfold bslice.
    change (h0 :: h1 :: h2 :: h3 :: bytes_of ns ++ bytes_of ref ++ bytes_of addr)
      with ([h0; h1; h2; h3] ++ bytes_of ns ++ bytes_of ref ++ bytes_of addr)%list.
    rewrite !app_assoc.
    rewrite (drop_app_length' (([h0; h1; h2; h3] ++ bytes_of ns) ++ bytes_of ref)%list)
      by (rewrite !length_app, !length_bytes_of; reflexivity).
    rewrite take_ge; [reflexivity|]. rewrite length_bytes_of. lia.
Qed.

(** C5. [MarshalBinary] emits the namespace length in one byte, the
    reference length in one byte and the address length in two bytes, most
    significant first, followed by the namespace, reference and address
    bytes in that order (a length that overflows its field keeps its low
    bits); the zero value, as a nil pointer or as an empty struct, is four
    zero bytes; [UnmarshalBinary] answers [ErrInvalidFormat] on every input
    of fewer than four bytes and on every input whose length is not 4 plus
    the three lengths its header declares. *)
Theorem binary_wire_format :
  (forall g : GenericAccountID,
      Generic_MarshalBinary (Some g)
      = byte_of (String.length (namespace g))
          :: byte_of (String.length (reference g))
          :: byte_of (String.length (address g) mod (256 * 256) / 256)
          :: byte_of (String.length (address g) mod (256 * 256))
          :: (bytes_of (namespace g) ++ bytes_of (reference g)
                ++ bytes_of (address g))%list)
  /\ (forall g : GenericAccountID,
        String.length (namespace g) < 256 ->
        String.length (reference g) < 256 ->
        String.length (address g) < 256 * 256 ->
        let out := Generic_MarshalBinary (Some g) in
        nat_of_ascii (nth 0 out zero) = String.length (namespace g)
        /\ nat_of_ascii (nth 1 out zero) = String.length (reference g)
        /\ Uint16 (nth 2 out zero) (nth 3 out zero) = String.length (address g))
  /\ Generic_MarshalBinary None = [zero; zero; zero; zero]
  /\ Generic_MarshalBinary (Some Generic_zero) = [zero; zero; zero; zero]
  /\ (forall data : list ascii,
        List.length data < 4 ->
        Generic_UnmarshalBinary data = Err ErrInvalidFormat)
  /\ (forall data : list ascii,
        List.length data
        <> 4 + nat_of_ascii (nth 0 data zero) + nat_of_ascii (nth 1 data zero)
             + Uint16 (nth 2 data zero) (nth 3 data zero) ->
        Generic_UnmarshalBinary data = Err ErrInvalidFormat).
Proof.
  split; [|split; [|split; [|split; [|split]]]].
  - intros g. reflexivity.
  - intros g Hn Hr Ha out.
    destruct (MarshalBinary_layout g) as (_ & H0 & H1 & H2 & _).
    fold out in H0, H1, H2.
    rewrite H0, H1, H2, !Nat.mod_small by assumption. auto.
  - reflexivity.
  - reflexivity.
  - intros data Hlen. unfold Generic_UnmarshalBinary.
    destruct (Nat.ltb_spec (List.length data) 4); [reflexivity | lia].
  - intros data Hne. unfold Generic_UnmarshalBinary.
    destruct (Nat.ltb_spec (List.length data) 4); [reflexivity|].
    cbn zeta.
    destruct (Nat.eqb_spec (List.length data)
                (4 + nat_of_ascii (nth 0 data zero) + nat_of_ascii (nth 1 data zero)
                 + Uint16 (nth 2 data zero) (nth 3 data zero))); [contradiction|].
    reflexivity.
Qed.

End Binary.

Section VariantProperties.

Context {X : External}.

(** ** Network tokens *)

(** C10. [SolanaNetwork.String] and [BIP122Network.String] return the first
    32 bytes of a token longer than 32 bytes and any other token unchanged;
    [NewSolana] and [NewBIP122], which cannot fail, store that string as the
    reference. *)
Theorem network_String_truncates (n : string) (pk : PublicKey) (addr : string) :
  (32 < String.length n ->
     SolanaNetwork_String n = stake 32 n
     /\ BIP122Network_String n = stake 32 n
     /\ String.length (stake 32 n) = 32
     /\ n = stake 32 n ++ sdrop 32 n)
  /\ (String.length n <= 32 ->
        SolanaNetwork_String n = n /\ BIP122Network_String n = n)
  /\ Generic_Reference (solana_base (NewSolana n pk)) = SolanaNetwork_String n
  /\ Generic_Reference (bip122_base (NewBIP122 n addr)) = BIP122Network_String n.
Proof.
  unfold SolanaNetwork_String, BIP122Network_String.
  repeat split; try reflexivity.
  - destruct (Nat.ltb_spec 32 (String.length n)); [reflexivity | lia].
  - destruct (Nat.ltb_spec 32 (String.length n)); [reflexivity | lia].
  - apply length_stake. lia.
  - symmetry. apply stake_sdrop.
  - destruct (Nat.ltb_spec 32 (String.length n)); [lia | reflexivity].
  - destruct (Nat.ltb_spec 32 (String.length n)); [lia | reflexivity].
Qed.

(** ** The EIP-155 chain id *)

(** C3. [NewEIP155] never fails, and what it stores is the value the
    caller passes, capped. For a chain id [n] passed as a [*big.Int], as a
    [*uint256.Int], or as an unsigned or a signed machine integer: when [n]
    is above 10^32 - 1 the identifier stores 10^32 - 1, both in the
    big-integer field read by [EIP155ChainID] and as the decimal reference;
    otherwise it stores [n] itself, in both places. An integer of at most 64
    bits is always below the cap and so always stored unchanged. The
    namespace is [eip155] and the address is the one passed. *)
Theorem NewEIP155_clamps (addr : Address) :
  let stores := fun (c : eip155ChainID) (n : Z) =>
    ((maxEIP155ChainID < n)%Z ->
       EIP155ChainID (Some (NewEIP155 c addr)) = Some maxEIP155ChainID
       /\ Generic_Reference (eip155_base (NewEIP155 c addr))
          = "99999999999999999999999999999999")
    /\ ((n <= maxEIP155ChainID)%Z ->
          EIP155ChainID (Some (NewEIP155 c addr)) = Some n
          /\ Generic_Reference (eip155_base (NewEIP155 c addr)) = FormatInt n) in
  maxEIP155ChainID = (10 ^ 32 - 1)%Z
  /\ (forall n : Z, stores (OfBigInt n) n)
  /\ (forall n : N, stores (OfUint256 n) (Z.of_N n))
  /\ (forall n : N, stores (OfUint n) (Z.of_N n))
  /\ (forall n : Z, stores (OfInt n) n)
  /\ (forall n : N, (n < 2 ^ 64)%N ->
        EIP155ChainID (Some (NewEIP155 (OfUint n) addr)) = Some (Z.of_N n)
        /\ Generic_Reference (eip155_base (NewEIP155 (OfUint n) addr))
           = FormatInt (Z.of_N n))
  /\ (forall n : Z, (- 2 ^ 63 <= n < 2 ^ 63)%Z ->
        EIP155ChainID (Some (NewEIP155 (OfInt n) addr)) = Some n
        /\ Generic_Reference (eip155_base (NewEIP155 (OfInt n) addr)) = FormatInt n)
  /\ (forall c : eip155ChainID,
        Generic_Namespace (eip155_base (NewEIP155 c addr)) = NamespaceEIP155
        /\ Generic_Address (eip155_base (NewEIP155 c addr)) = Address_Hex addr
        /\ ethAddr (NewEIP155 c addr) = addr).
Proof.
  assert (Hst : forall (c : eip155ChainID) (n : Z), bigIntOrIntToBigInt c = n ->
    ((maxEIP155ChainID < n)%Z ->
       EIP155ChainID (Some (NewEIP155 c addr)) = Some maxEIP155ChainID
       /\ Generic_Reference (eip155_base (NewEIP155 c addr))
          = "99999999999999999999999999999999")
    /\ ((n <= maxEIP155ChainID)%Z ->
          EIP155ChainID (Some (NewEIP155 c addr)) = Some n
          /\ Generic_Reference (eip155_base (NewEIP155 c addr)) = FormatInt n)).
  { intros c n Hc. unfold NewEIP155. rewrite Hc.
    cbn [EIP155ChainID chainID eip155_base Generic_Reference newGenericUnchecked
      reference].
    split; intros Hn.
    - destruct (Z.ltb_spec maxEIP155ChainID n); [split; reflexivity | lia].
    - destruct (Z.ltb_spec maxEIP155ChainID n); [lia | split; reflexivity]. }
  assert (Hmax : (2 ^ 64 < maxEIP155ChainID)%Z) by (unfold maxEIP155ChainID; lia).
  cbn zeta. split; [reflexivity|].
  split; [intros n; apply Hst; reflexivity|].
  split; [intros n; apply Hst; reflexivity|].
  split; [intros n; apply Hst; reflexivity|].
  split; [intros n; apply Hst; reflexivity|].
  split; [|split].
  - intros n Hn. apply (Hst (OfUint n) (Z.of_N n) eq_refl).
    assert (Z.of_N n < 2 ^ 64)%Z by (change (2 ^ 64)%Z with (Z.of_N (2 ^ 64)); lia).
    lia.
  - intros n Hn. apply (Hst (OfInt n) n eq_refl). lia.
  - intros c. repeat split.
Qed.

(** The two sample points of the specification. *)
Example NewEIP155_at_10_32 (addr : Address) :
  EIP155ChainID (Some (NewEIP155 (OfBigInt (10 ^ 32)) addr)) = Some (10 ^ 32 - 1)%Z.
Proof. reflexivity. Qed.

Example NewEIP155_at_max (addr : Address) :
  EIP155ChainID (Some (NewEIP155 (OfBigInt (10 ^ 32 - 1)) addr)) = Some (10 ^ 32 - 1)%Z.
Proof. reflexivity. Qed.

(** ** Equality *)

(** [IsZero] of any implementation looks at the three fields only. *)
Lemma AccountID_IsZero_fields (a : AccountID) :
  AccountID_IsZero a = Generic_IsZero (AccountID_base a).
Proof.
  destruct a as [p|[r|]|[r|]|[r|]]; cbn; try reflexivity;
    destruct r as [[g|] ?]; reflexivity.
Qed.

Lemma Generic_Equal_spec (p : option GenericAccountID) (other : option AccountID) :
  Generic_Equal p other = true
  <-> (Generic_IsZero p = true /\ nil_or_zero other = true)
      \/ (Generic_IsZero p = false
          /\ exists b, other = Some b /\ AccountID_IsZero b = false
             /\ Generic_Namespace p = AccountID_Namespace b
             /\ Generic_Reference p = AccountID_Reference b
             /\ Generic_Address p = AccountID_Address b).
Proof.
  unfold Generic_Equal.
  destruct (Generic_IsZero p) eqn:Hz, (nil_or_zero other) eqn:Ho; cbn.
  - split; auto.
  - split; [discriminate|]. intros [[_ H]|[H _]]; discriminate.
  - split; [discriminate|]. intros [[H _]|(_ & b & -> & Hb & _)]; [discriminate|].
    cbn in Ho. congruence.
  - destruct p as [g|]; [|discriminate].
    destruct other as [b|]; [|discriminate]. cbn in Ho.
    rewrite !andb_true_iff, !String.eqb_eq. cbn. split.
    + intros [[H1 H2] H3]. right. split; [reflexivity|]. exists b. auto.
    + intros [[H _]|(_ & b' & [= <-] & _ & H1 & H2 & H3)]; [discriminate|]. auto.
Qed.

(** C8. [a.Equal(b)] holds exactly when both sides are zero values (for [b]
    also the nil interface), or neither is and the namespace, reference and
    address of the two agree, whatever the implementations behind [a] and
    [b] are. *)
Theorem Equal_structural (a : AccountID) (other : option AccountID) :
  AccountID_Equal a other = true
  <-> (AccountID_IsZero a = true /\ nil_or_zero other = true)
      \/ (AccountID_IsZero a = false
          /\ exists b, other = Some b /\ AccountID_IsZero b = false
             /\ same_fields a b).
Proof.
  unfold same_fields, AccountID_Namespace, AccountID_Reference, AccountID_Address.
  rewrite (AccountID_IsZero_fields a).
  assert (Hwrap : forall (z : bool) (p : option GenericAccountID),
             z = Generic_IsZero p ->
             (if z && nil_or_zero other then true
              else if z || nil_or_zero other then false
                   else Generic_Equal p other) = Generic_Equal p other).
  { intros z p ->. unfold Generic_Equal.
    destruct (Generic_IsZero p), (nil_or_zero other); reflexivity. }
  destruct a as [p|[r|]|[r|]|[r|]]; cbn [AccountID_Equal AccountID_base].
  - apply Generic_Equal_spec.
  - unfold eip155_Equal.
    rewrite (Hwrap _ (eip155_base r)) by (cbn; destruct (eip155_base r); reflexivity).
    apply Generic_Equal_spec.
  - unfold eip155_Equal. cbn.
    destruct (nil_or_zero other); cbn; split; auto; try discriminate.
    intros [[_ H]|[H _]]; discriminate.
  - unfold solana_Equal.
    rewrite (Hwrap _ (solana_base r)) by (cbn; destruct (solana_base r); reflexivity).
    apply Generic_Equal_spec.
  - unfold solana_Equal. cbn.
    destruct (nil_or_zero other); cbn; split; auto; try discriminate.
    intros [[_ H]|[H _]]; discriminate.
  - unfold bip122_Equal.
    rewrite (Hwrap _ (bip122_base r)) by (cbn; destruct (bip122_base r); reflexivity).
    apply Generic_Equal_spec.
  - unfold bip122_Equal. cbn.
    destruct (nil_or_zero other); cbn; split; auto; try discriminate.
    intros [[_ H]|[H _]]; discriminate.
Qed.

(** A generic identifier and a specialised one with the same three fields
    are equal, in both directions. *)
Example Equal_across_variants (g : GenericAccountID) (addr : Address) (c : option Z) :
  Generic_IsZero (Some g) = false ->
  AccountID_Equal (OfGeneric (Some g)) (Some (OfEIP155 (Some (mkEIP155 (Some g) addr c))))
  = true
  /\ AccountID_Equal (OfEIP155 (Some (mkEIP155 (Some g) addr c))) (Some (OfGeneric (Some g)))
     = true.
Proof.
  intros Hz. split.
  - apply Generic_Equal_spec. right. split; [exact Hz|].
    eexists. split; [reflexivity|]. split; [exact Hz | repeat split].
  - cbn [AccountID_Equal]. unfold eip155_Equal.
    change (eip155_IsZero (Some (mkEIP155 (Some g) addr c))) with (Generic_IsZero (Some g)).
    change (nil_or_zero (Some (OfGeneric (Some g)))) with (Generic_IsZero (Some g)).
    rewrite Hz. cbn [andb orb eip155_base].
    apply Generic_Equal_spec. right. split; [exact Hz|].
    eexists. split; [reflexivity|]. split; [exact Hz | repeat split].
Qed.

End VariantProperties.

(** ** The chain identifier *)

Lemma Split_colon_no_colon (s : string) : colons s = 0 -> Split_colon s = [s].
Proof.
  induction s as [|c s IH]; simpl; [reflexivity|].
  destruct (Ascii.eqb c colon); [discriminate|].
  intros H. now rewrite IH.
Qed.

Lemma Split_colon_app (a b : string) :
  colons a = 0 -> Split_colon (a ++ ":" ++ b) = a :: Split_colon b.
Proof.
  induction a as [|c a IH]; simpl; [reflexivity|].
  destruct (Ascii.eqb c colon); [discriminate|].
  intros H. simpl in IH. now rewrite IH.
Qed.

Lemma ParseChainID_parts (ns ref : string) :
  colons ns = 0 -> colons ref = 0 ->
  ParseChainID (ns ++ ":" ++ ref)
  = (let? _ := validateReference ns ref in Ok (mkChainID ns ref)).
Proof.
  intros Hn Hr. unfold ParseChainID.
  now rewrite Split_colon_app, Split_colon_no_colon.
Qed.

Lemma validateReference_not_builtin (ns : Namespace) (ref : string) :
  builtin_namespace ns = false -> validateReference ns ref = Err ErrInvalidNamespace.
Proof.
  unfold builtin_namespace, validateReference.
  intros [[H1 H2]%orb_false_iff H3]%orb_false_iff. now rewrite H1, H2, H3.
Qed.

Lemma validateReference_InvalidNamespace (ns : Namespace) (ref : string) :
  validateReference ns ref = Err ErrInvalidNamespace <-> builtin_namespace ns = false.
Proof.
  split; [|apply validateReference_not_builtin].
  unfold builtin_namespace, validateReference.
  destruct (String.eqb ns NamespaceEIP155);
    [destruct (ParseUint64 ref); discriminate|].
  destruct (String.eqb ns NamespaceSolana);
    [destruct (MatchString solanaReferenceRegex ref); discriminate|].
  destruct (String.eqb ns NamespaceBIP122);
    [destruct (MatchString bip122ReferenceRegex ref); discriminate|].
  reflexivity.
Qed.

Section ParseProperties.

Context {X : External}.

Lemma init_registry_builtins : builtins_registered init_registry.
Proof. repeat split. Qed.

Lemma unregistered_not_builtin (r : registry) (ns : Namespace) :
  builtins_registered r -> r !! ns = None -> builtin_namespace ns = false.
Proof.
  intros (H1 & H2 & H3) Hns. unfold builtin_namespace.
  destruct (String.eqb_spec ns NamespaceEIP155) as [->|_]; [congruence|].
  destruct (String.eqb_spec ns NamespaceSolana) as [->|_]; [congruence|].
  destruct (String.eqb_spec ns NamespaceBIP122) as [->|_]; [congruence|].
  reflexivity.
Qed.

(** Outside the three built-in namespaces [Validate] is the generic grammar. *)
Lemma Generic_Validate_generic (g : GenericAccountID) :
  builtin_namespace (namespace g) = false ->
  Generic_Validate (Some g)
  = if negb (MatchString NamespaceRegex (namespace g)) then Err ErrInvalidNamespace
    else if negb (MatchString ReferenceRegex (reference g)) then Err ErrInvalidReference
    else if negb (MatchString AddressRegex (address g)) then Err ErrInvalidAddress
    else Ok tt.
Proof.
  unfold builtin_namespace, Generic_Validate.
  intros [[H1 H2]%orb_false_iff H3]%orb_false_iff. now rewrite H1, H2, H3.
Qed.

Lemma Parse_parts (r : registry) (ns ref addr : string) :
  colons ns = 0 -> colons ref = 0 ->
  Parse r (ns ++ ":" ++ ref ++ ":" ++ addr)
  = match r !! ns with
    | Some p => Parser_ParseAddress p ref addr
    | None => let? a := NewGeneric ns ref addr in Ok (OfGeneric (Some a))
    end.
Proof.
  intros Hn Hr. unfold Parse. now rewrite SplitCAIP10_parts.
Qed.

(** C6. [Parse "eip155:1"] fails with [ErrInvalidFormat]. A string of three
    parts whose namespace is not registered and matches [[-a-z0-9]{3,8}] is
    checked against the generic grammar: when its reference and address
    match the generic patterns [Parse] returns the Generic identifier of the
    three parts, and whenever [Parse] succeeds on it the result is that
    Generic identifier and the patterns match. A string whose namespace is
    registered is handed, reference and address, to the registered parser. *)
Theorem Parse_dispatch (r : registry) :
  Parse r "eip155:1" = Err ErrInvalidFormat
  /\ (forall s ns ref addr,
        builtins_registered r ->
        SplitCAIP10 s = Ok (ns, ref, addr) ->
        r !! ns = None ->
        MatchString NamespaceRegex ns = true ->
        (MatchString ReferenceRegex ref = true ->
         MatchString AddressRegex addr = true ->
         Parse r s = Ok (OfGeneric (Some (mkGeneric ns ref addr))))
        /\ (forall a, Parse r s = Ok a ->
              a = OfGeneric (Some (mkGeneric ns ref addr))
              /\ MatchString ReferenceRegex ref = true
              /\ MatchString AddressRegex addr = true))
  /\ (forall s ns ref addr p,
        SplitCAIP10 s = Ok (ns, ref, addr) ->
        r !! ns = Some p ->
        Parse r s = Parser_ParseAddress p ref addr)
  /\ (builtins_registered r -> r !! "unknown" = None ->
      Parse r "unknown:1:addr" = Ok (OfGeneric (Some (mkGeneric "unknown" "1" "addr")))).
Proof.
  assert (Hgen : forall s ns ref addr,
            builtins_registered r -> SplitCAIP10 s = Ok (ns, ref, addr) ->
            r !! ns = None -> MatchString NamespaceRegex ns = true ->
            Parse r s
            = if negb (MatchString ReferenceRegex ref) then Err ErrInvalidReference
              else if negb (MatchString AddressRegex addr) then Err ErrInvalidAddress
              else Ok (OfGeneric (Some (mkGeneric ns ref addr)))).
  { intros s ns ref addr Hb Hs Hr Hn. unfold Parse. rewrite Hs. cbn [bind].
    rewrite Hr. unfold NewGeneric. cbn zeta.
    rewrite Generic_Validate_generic
      by (cbn [namespace]; eapply unregistered_not_builtin; eauto).
    cbn [namespace reference address]. rewrite Hn. cbn [negb].
    destruct (MatchString ReferenceRegex ref); [|reflexivity].
    destruct (MatchString AddressRegex addr); reflexivity. }
  split; [reflexivity|]. split; [|split].
  - intros s ns ref addr Hb Hs Hr Hn. rewrite (Hgen s ns ref addr) by assumption.
    split.
    + intros -> ->. reflexivity.
    + intros a.
      destruct (MatchString ReferenceRegex ref); [|discriminate].
      destruct (MatchString AddressRegex addr); [|discriminate].
      cbn. intros [= <-]. auto.
  - intros s ns ref addr p Hs Hp. unfold Parse. rewrite Hs. cbn [bind]. now rewrite Hp.
  - intros Hb Hr. now rewrite (Hgen "unknown:1:addr" "unknown" "1" "addr").
Qed.

(** C9. The bip122 parser never fails and checks nothing: whatever the
    reference and the address, [ParseAddress] returns [NewBIP122] of them.
    The solana parser succeeds exactly when the address matches the base58
    pattern and decodes to a key of 32 bytes; its answer to an address does
    not depend on the reference. So [Parse] accepts ["bip122:nothex:!!"],
    whose reference and address fail the checks published for the
    namespace. *)
Theorem unvalidated_parsers :
  (forall ref addr,
      Parser_ParseAddress bip122Parser ref addr = Ok (OfBIP122 (Some (NewBIP122 ref addr))))
  /\ (forall ref addr,
        is_ok (Parser_ParseAddress solanaParser ref addr) = true
        <-> MatchString solanaAddressRegex addr = true
            /\ exists pk, NewPublicKey addr = Some pk
                          /\ List.length (PublicKey_Bytes pk) = 32)
  /\ (forall ref ref' addr,
        is_ok (Parser_ParseAddress solanaParser ref addr)
        = is_ok (Parser_ParseAddress solanaParser ref' addr))
  /\ (forall r, r !! NamespaceBIP122 = Some bip122Parser ->
        Parse r "bip122:nothex:!!"
        = Ok (OfBIP122 (Some (mkBIP122 (Some (mkGeneric "bip122" "nothex" "!!")) "nothex"))))
  /\ validateReference NamespaceBIP122 "nothex" = Err ErrInvalidReference
  /\ ValidateBIP122Address "nothex" "!!" = Err ErrInvalidAddress.
Proof.
  assert (Hsol : forall ref addr,
            is_ok (Parser_ParseAddress solanaParser ref addr)
            = MatchString solanaAddressRegex addr
              && match NewPublicKey addr with
                 | Some pk => Nat.eqb (List.length (PublicKey_Bytes pk)) 32
                 | None => false
                 end).
  { intros ref addr. cbn [Parser_ParseAddress]. unfold NewSolanaFromBase58.
    destruct (MatchString solanaAddressRegex addr); [|reflexivity]. cbn [negb andb].
    destruct (NewPublicKey addr) as [pk|]; [|reflexivity].
    unfold SolanaAddressLength.
    destruct (Nat.eqb (List.length (PublicKey_Bytes pk)) 32); reflexivity. }
  split; [reflexivity|]. split; [|split; [|split; [|split]]].
  - intros ref addr. rewrite Hsol, andb_true_iff. split.
    + intros [Hm Hk]. split; [assumption|].
      destruct (NewPublicKey addr) as [pk|]; [|discriminate].
      exists pk. split; [reflexivity|]. now apply Nat.eqb_eq.
    + intros [Hm (pk & -> & Hk)]. split; [assumption|]. now apply Nat.eqb_eq.
  - intros ref ref' addr. now rewrite !Hsol.
  - intros r Hr.
    change "bip122:nothex:!!" with ("bip122" ++ ":" ++ "nothex" ++ ":" ++ "!!").
    rewrite Parse_parts by reflexivity.
    change (r !! "bip122") with (r !! NamespaceBIP122). rewrite Hr. reflexivity.
  - reflexivity.
  - reflexivity.
Qed.

End ParseProperties.

(** ** The namespaces of a chain identifier *)

(** C7 (as the code has it). [validateReference] switches over the three
    built-in namespaces; neither it nor [ParseChainID] nor
    [ChainID.Validate] reads the parser registry. So for every namespace
    other than [eip155], [solana] and [bip122], registered or not,
    [ParseChainID] and [ChainID.Validate] answer [ErrInvalidNamespace]. *)
Theorem ChainID_namespaces_closed (ns : Namespace) (ref : string) :
  builtin_namespace ns = false ->
  colons ns = 0 -> colons ref = 0 ->
  ParseChainID (ns ++ ":" ++ ref) = Err ErrInvalidNamespace
  /\ (ChainID_IsZero (mkChainID ns ref) = false ->
      ChainID_Validate (mkChainID ns ref) = Err ErrInvalidNamespace)
  /\ validateReference ns ref = Err ErrInvalidNamespace.
Proof.
  intros Hb Hn Hr.
  pose proof (validateReference_not_builtin ns ref Hb) as Hv.
  repeat split.
  - rewrite ParseChainID_parts by assumption. now rewrite Hv.
  - intros Hz. unfold ChainID_Validate. now rewrite Hz.
  - assumption.
Qed.

(** A parser registered for ["cosmos"] does not make ["cosmos:hub"] a
    chain identifier. *)
Lemma registered_namespace_rejected :
  RegisterParser (GenericParser "cosmos") init_registry !! "cosmos"
  = Some (GenericParser "cosmos")
  /\ ParseChainID "cosmos:hub" = Err ErrInvalidNamespace
  /\ ChainID_Validate (mkChainID "cosmos" "hub") = Err ErrInvalidNamespace.
Proof. repeat split. Qed.

Lemma ChainID_namespaces_closed_witness :
  ParseChainID ("cosmos" ++ ":" ++ "hub") = Err ErrInvalidNamespace
  /\ (ChainID_IsZero (mkChainID "cosmos" "hub") = false ->
      ChainID_Validate (mkChainID "cosmos" "hub") = Err ErrInvalidNamespace)
  /\ validateReference "cosmos" "hub" = Err ErrInvalidNamespace.
Proof.
  apply (ChainID_namespaces_closed "cosmos" "hub"); reflexivity.
Defined.

(** The decimal numeral of an integer holds no colon. *)
Lemma NilEmpty_string_of_uint_no_colon (u : Decimal.uint) :
  colons (NilEmpty.string_of_uint u) = 0.
Proof. induction u; simpl; auto. Qed.

Lemma FormatInt_no_colon (z : Z) : colons (FormatInt z) = 0.
Proof.
  unfold FormatInt, NilZero.string_of_int, NilZero.string_of_uint.
  destruct (Z.to_int z) as [u|u]; destruct u; simpl;
    auto using NilEmpty_string_of_uint_no_colon.
Qed.

Lemma colons_stake (n : nat) (s : string) : colons s = 0 -> colons (stake n s) = 0.
Proof.
  revert s; induction n as [|n IH]; intros [|c s]; simpl; auto.
  destruct (Ascii.eqb c colon); simpl; [discriminate | apply IH].
Qed.

Section ChainIDProperties.

Context {X : External}.

Lemma Generic_String_nonzero (g : GenericAccountID) :
  Generic_IsZero (Some g) = false ->
  Generic_String (Some g) = namespace g ++ ":" ++ reference g ++ ":" ++ address g.
Proof. intros H. unfold Generic_String. now rewrite H. Qed.

(** C2 (as the code has it). For every identifier that is not the zero value
    and whose namespace and reference hold no colon, [ChainID()] is the pair
    of its namespace and reference, and [ParseChainID] applied to the
    CAIP-2 prefix [namespace:reference] of its string returns that pair
    exactly when [validateReference] accepts the reference for the
    namespace; otherwise it fails with the error of [validateReference]. *)
Theorem ChainID_of_prefix (a : AccountID) :
  AccountID_IsZero a = false ->
  colons (AccountID_Namespace a) = 0 ->
  colons (AccountID_Reference a) = 0 ->
  let prefix := AccountID_Namespace a ++ ":" ++ AccountID_Reference a in
  AccountID_String a = prefix ++ ":" ++ AccountID_Address a
  /\ AccountID_ChainID a = mkChainID (AccountID_Namespace a) (AccountID_Reference a)
  /\ ParseChainID prefix
     = (let? _ := validateReference (AccountID_Namespace a) (AccountID_Reference a) in
        Ok (AccountID_ChainID a))
  /\ (ParseChainID prefix = Ok (AccountID_ChainID a)
      <-> validateReference (AccountID_Namespace a) (AccountID_Reference a) = Ok tt).
Proof.
  intros Hz Hn Hr. cbn zeta.
  rewrite AccountID_IsZero_fields in Hz.
  unfold AccountID_String, AccountID_ChainID, AccountID_Namespace,
    AccountID_Reference, AccountID_Address in *.
  destruct (AccountID_base a) as [g|]; [|discriminate].
  cbn [Generic_Namespace Generic_Reference Generic_Address Generic_ChainID] in *.
  rewrite ParseChainID_parts by assumption.
  repeat split.
  - rewrite Generic_String_nonzero by assumption. now rewrite !sapp_assoc.
  - destruct (validateReference (namespace g) (reference g)) as [[]|e]; cbn;
      [reflexivity | discriminate].
  - intros ->. reflexivity.
Qed.

End ChainIDProperties.

(** An identifier of an unregistered namespace, and one with a reference
    that is not a block-hash prefix, have no chain identifier that
    [ParseChainID] accepts. *)
Lemma ChainID_prefix_rejected :
  (fun X : External => @Parse X init_registry "unknown:1:addr")
  = (fun X : External => Ok (@OfGeneric X (Some (mkGeneric "unknown" "1" "addr"))))
  /\ ParseChainID "unknown:1" = Err ErrInvalidNamespace
  /\ Generic_String (bip122_base (NewBIP122 "nothex" "!!")) = "bip122:nothex:!!"
  /\ Generic_ChainID (bip122_base (NewBIP122 "nothex" "!!")) = mkChainID "bip122" "nothex"
  /\ ParseChainID "bip122:nothex" = Err ErrInvalidReference.
Proof. repeat split. Qed.

Lemma ChainID_of_prefix_witness :
  let a := @OfGeneric plain_external (Some (mkGeneric "eip155" "1" "0xab")) in
  AccountID_String a = ("eip155" ++ ":" ++ "1") ++ ":" ++ "0xab"
  /\ AccountID_ChainID a = mkChainID "eip155" "1"
  /\ ParseChainID ("eip155" ++ ":" ++ "1")
     = (let? _ := validateReference "eip155" "1" in Ok (AccountID_ChainID a))
  /\ (ParseChainID ("eip155" ++ ":" ++ "1") = Ok (AccountID_ChainID a)
      <-> validateReference "eip155" "1" = Ok tt).
Proof.
  exact (@ChainID_of_prefix plain_external
           (OfGeneric (Some (mkGeneric "eip155" "1" "0xab")))
           eq_refl eq_refl eq_refl).
Defined.

(** ** Round trips through the codecs *)

Lemma bytes_of_app (a b : string) :
  bytes_of (a ++ b) = (bytes_of a ++ bytes_of b)%list.
Proof. induction a as [|c a IH]; simpl; [reflexivity | now rewrite IH]. Qed.

Section RoundTrip.

Context {X : External}.

Variable g : GenericAccountID.
Hypothesis Hvalid : Generic_Validate (Some g) = Ok tt.

(** A valid identifier has a namespace of 3 to 8 characters of the
    namespace class. *)
Lemma valid_namespace : MatchString NamespaceRegex (namespace g) = true.
Proof.
  unfold Generic_Validate in Hvalid.
  destruct (MatchString NamespaceRegex (namespace g)); [reflexivity | discriminate].
Qed.

Lemma valid_nonzero : Generic_IsZero (Some g) = false.
Proof.
  pose proof (NamespaceRegex_length _ valid_namespace) as Hlen.
  unfold Generic_IsZero. destruct (namespace g); [simpl in Hlen; lia | reflexivity].
Qed.

Lemma valid_String :
  Generic_String (Some g) = namespace g ++ ":" ++ reference g ++ ":" ++ address g.
Proof. apply Generic_String_nonzero, valid_nonzero. Qed.

Lemma NewGeneric_valid : NewGeneric (namespace g) (reference g) (address g) = Ok g.
Proof.
  unfold NewGeneric. cbn zeta.
  replace (mkGeneric (namespace g) (reference g) (address g)) with g
    by (now destruct g).
  now rewrite Hvalid.
Qed.

Lemma UnmarshalText_String :
  colons (reference g) = 0 ->
  Generic_UnmarshalText (bytes_of (Generic_String (Some g))) = Ok g.
Proof.
  intros Href. unfold Generic_UnmarshalText. rewrite string_of_bytes_of, valid_String.
  rewrite SplitCAIP10_parts
    by (auto using NamespaceRegex_no_colon, valid_namespace).
  cbn [bind]. apply NewGeneric_valid.
Qed.

Lemma String_not_empty : String.eqb (Generic_String (Some g)) "" = false.
Proof.
  rewrite valid_String. pose proof (NamespaceRegex_length _ valid_namespace) as Hlen.
  destruct (namespace g); [simpl in Hlen; lia | reflexivity].
Qed.

Lemma text_roundtrip :
  colons (reference g) = 0 ->
  Generic_UnmarshalText (Generic_MarshalText (Some g)) = Ok g.
Proof. apply UnmarshalText_String. Qed.

Lemma json_roundtrip :
  colons (reference g) = 0 ->
  Generic_UnmarshalJSON (Generic_MarshalJSON (Some g)) = Ok g.
Proof.
  intros Href. unfold Generic_MarshalJSON. rewrite valid_nonzero.
  set (S := Generic_String (Some g)).
  assert (Hdata : bytes_of (String dquote (S ++ String dquote ""))
                  = ((dquote :: bytes_of S) ++ [dquote])%list).
  { cbn [bytes_of list_ascii_of_string]. fold (bytes_of (S ++ String dquote "")).
    now rewrite bytes_of_app. }
  rewrite Hdata. unfold Generic_UnmarshalJSON.
  assert (Hnull : String.eqb (string_of ((dquote :: bytes_of S) ++ [dquote])%list) "null"
                  = false) by reflexivity.
  rewrite Hnull.
  assert (Hlen : List.length ((dquote :: bytes_of S) ++ [dquote])%list
                 = Datatypes.S (Datatypes.S (List.length (bytes_of S)))).
  { rewrite length_app. cbn [List.length]. lia. }
  rewrite Hlen.
  replace (Datatypes.S (Datatypes.S (List.length (bytes_of S))) - 1)
    with (List.length (dquote :: bytes_of S)) by (cbn [List.length]; lia).
  rewrite nth_middle. cbn [nth List.app]. rewrite !Ascii.eqb_refl.
  cbn [Nat.ltb Nat.leb negb orb].
  unfold bslice. cbn [skipn List.length].
  rewrite drop_0, Nat.sub_succ, Nat.sub_0_r, take_app_length.
  rewrite string_of_bytes_of. unfold S. rewrite String_not_empty.
  now apply UnmarshalText_String.
Qed.

Lemma sql_roundtrip :
  colons (reference g) = 0 ->
  Generic_Scan (Generic_Value (Some g)) = Ok g.
Proof.
  intros Href. unfold Generic_Value. rewrite valid_nonzero. cbn [Generic_Scan].
  rewrite String_not_empty. now apply UnmarshalText_String.
Qed.

Lemma binary_roundtrip :
  String.length (reference g) < 256 ->
  String.length (address g) < 256 * 256 ->
  Generic_UnmarshalBinary (Generic_MarshalBinary (Some g)) = Ok g.
Proof.
  intros Hr Ha.
  pose proof (NamespaceRegex_length _ valid_namespace) as Hn.
  destruct (MarshalBinary_layout g) as (Hlen & H0 & H1 & H2 & Hns & Hrf & Had).
  cbn zeta in *.
  set (out := Generic_MarshalBinary (Some g)) in *.
  rewrite Nat.mod_small in H0 by lia.
  rewrite Nat.mod_small in H1, H2 by assumption.
  unfold Generic_UnmarshalBinary. rewrite Hlen, H0, H1, H2.
  destruct (Nat.ltb_spec
              (4 + String.length (namespace g) + String.length (reference g)
               + String.length (address g)) 4) as [Hlt|_]; [lia|].
  rewrite Nat.eqb_refl. cbn [negb].
  rewrite Hns, Hrf, Had, !string_of_bytes_of.
  apply NewGeneric_valid.
Qed.

End RoundTrip.

(** C1 (as the code has it). Let [a] be an identifier of any variant whose
    fields pass [Validate]. When its reference holds no colon, the text,
    JSON and SQL round trips each succeed and give back the three fields of
    [a]; when its reference is shorter than 256 bytes and its address
    shorter than 65536 bytes, so does the binary round trip. The zero value
    goes through the JSON and the SQL round trip unchanged. *)
Theorem codec_roundtrip {X : External} (a : AccountID) (g : GenericAccountID) :
  AccountID_base a = Some g ->
  AccountID_Validate a = Ok tt ->
  (colons (AccountID_Reference a) = 0 ->
     Generic_UnmarshalText (Generic_MarshalText (AccountID_base a)) = Ok g
     /\ Generic_UnmarshalJSON (Generic_MarshalJSON (AccountID_base a)) = Ok g
     /\ Generic_Scan (Generic_Value (AccountID_base a)) = Ok g)
  /\ (String.length (AccountID_Reference a) < 256 ->
      String.length (AccountID_Address a) < 256 * 256 ->
      Generic_UnmarshalBinary (Generic_MarshalBinary (AccountID_base a)) = Ok g)
  /\ Generic_UnmarshalJSON (Generic_MarshalJSON (Some Generic_zero)) = Ok Generic_zero
  /\ Generic_Scan (Generic_Value (Some Generic_zero)) = Ok Generic_zero
  /\ Generic_UnmarshalJSON (Generic_MarshalJSON None) = Ok Generic_zero
  /\ Generic_Scan (Generic_Value None) = Ok Generic_zero.
Proof.
  unfold AccountID_Validate, AccountID_Reference, AccountID_Address.
  intros -> Hv. cbn [Generic_Reference Generic_Address] in *.
  split.
  { intros Hr. split; [now apply text_roundtrip|].
    split; [now apply json_roundtrip | now apply sql_roundtrip]. }
  split; [now apply binary_roundtrip|].
  repeat split.
Qed.

(** Where a round trip does not give the identifier back, for every
    instance of the external collaborators:
    - [NewBIP122] builds an identifier without validating it, and the text
      codec refuses to read back what it wrote for it;
    - an identifier that passes [Validate] with a colon in its reference is
      read back from its text as another identifier;
    - an identifier that passes [Validate] with a reference of 256 bytes is
      refused by the binary codec;
    - the zero value is refused by the text codec, its text being empty, and
      by the binary codec, its namespace being empty. *)
Lemma roundtrip_fails :
  (fun X : External =>
     @Generic_UnmarshalText X (Generic_MarshalText (bip122_base (NewBIP122 "nothex" "!!"))))
  = (fun _ => Err ErrInvalidAddress)
  /\ (fun X : External =>
        let g := mkGeneric "bip122" "x:y" (srepeat "q" 41) in
        (@Generic_Validate X (Some g),
         @Generic_UnmarshalText X (Generic_MarshalText (Some g))))
     = (fun _ => (Ok tt, Ok (mkGeneric "bip122" "x" ("y:" ++ srepeat "q" 41))))
  /\ (fun X : External =>
        let g := mkGeneric "bip122" (srepeat "a" 256) "1BvBMSEYstWetqTFn5Au4m4GFg7xJaNVN2" in
        (@Generic_Validate X (Some g),
         @Generic_UnmarshalBinary X (Generic_MarshalBinary (Some g))))
     = (fun _ => (Ok tt, Err ErrInvalidFormat))
  /\ (fun X : External =>
        @Generic_UnmarshalText X (Generic_MarshalText (Some Generic_zero)))
     = (fun _ => Err ErrEmptyValue)
  /\ (fun X : External =>
        @Generic_UnmarshalBinary X (Generic_MarshalBinary (Some Generic_zero)))
     = (fun _ => Err ErrInvalidNamespace).
Proof. repeat split; vm_compute; reflexivity. Qed.

Lemma codec_roundtrip_witness :
  let g := mkGeneric "unknown" "1" "addr" in
  @Generic_UnmarshalText plain_external (Generic_MarshalText (Some g)) = Ok g
  /\ @Generic_UnmarshalJSON plain_external (Generic_MarshalJSON (Some g)) = Ok g
  /\ @Generic_Scan plain_external (Generic_Value (Some g)) = Ok g
  /\ @Generic_UnmarshalBinary plain_external (Generic_MarshalBinary (Some g)) = Ok g.
Proof.
  cbn zeta.
  destruct (@codec_roundtrip plain_external
              (OfGeneric (Some (mkGeneric "unknown" "1" "addr")))
              (mkGeneric "unknown" "1" "addr") eq_refl eq_refl)
    as (Htext & Hbin & _).
  destruct (Htext eq_refl) as (H1 & H2 & H3).
  split; [exact H1|]. split; [exact H2|]. split; [exact H3|].
  apply Hbin; apply Nat.ltb_lt; vm_compute; reflexivity.
Defined.

(** ** What [Parse] returns *)

Section ParseResults.

Context {X : External}.

(** Every identifier that [Parse] returns is not the zero value and has a
    namespace and a reference without a colon. *)
Lemma Parse_result_wellformed (r : registry) (s : string) (a : AccountID) :
  Parse r s = Ok a ->
  AccountID_IsZero a = false
  /\ colons (AccountID_Namespace a) = 0
  /\ colons (AccountID_Reference a) = 0.
Proof.
  unfold Parse. pose proof (SplitCAIP10_cases s) as Hs.
  destruct (SplitCAIP10 s) as [[[ns ref] addr]|e]; [|discriminate].
  destruct Hs as (_ & Hn & Hr). cbn [bind].
  assert (Hgen : forall ns', (let? g := NewGeneric ns' ref addr in
                              Ok (OfGeneric (Some g))) = Ok a ->
            AccountID_IsZero a = false
            /\ colons (AccountID_Namespace a) = 0
            /\ colons (AccountID_Reference a) = 0).
  { intros ns'. unfold NewGeneric. cbn zeta.
    destruct (Generic_Validate (Some (mkGeneric ns' ref addr))) as [[]|e] eqn:Hv;
      [|discriminate].
    cbn [bind]. intros [= <-].
    pose proof (valid_namespace _ Hv) as Hm. cbn [namespace] in Hm.
    cbn. repeat split.
    - apply (valid_nonzero _ Hv).
    - now apply NamespaceRegex_no_colon.
    - exact Hr. }
  destruct (r !! ns) as [p|]; [|apply Hgen].
  destruct p as [| | |ns']; cbn [Parser_ParseAddress].
  - unfold newEIP155FromReference.
    destruct (SetString10 ref) as [c|]; [|discriminate].
    cbn [bind]. intros [= <-].
    split; [reflexivity|]. split; [reflexivity|]. apply FormatInt_no_colon.
  - unfold NewSolanaFromBase58.
    destruct (MatchString solanaAddressRegex addr); [|discriminate]. cbn [negb].
    destruct (NewPublicKey addr) as [pk|]; [|discriminate].
    destruct (Nat.eqb (List.length (PublicKey_Bytes pk)) SolanaAddressLength);
      [|discriminate].
    cbn [negb bind]. intros [= <-].
    split; [reflexivity|]. split; [reflexivity|].
    cbn. unfold SolanaNetwork_String.
    destruct (32 <? String.length ref)%nat; [now apply colons_stake | exact Hr].
  - intros [= <-].
    split; [reflexivity|]. split; [reflexivity|].
    cbn. unfold BIP122Network_String.
    destruct (32 <? String.length ref)%nat; [now apply colons_stake | exact Hr].
  - apply Hgen.
Qed.

End ParseResults.

(** ** Decimal numerals *)

Lemma digits_from_of_uint_acc (d : Decimal.uint) (acc : positive) :
  digits_from (Z.pos acc) (NilEmpty.string_of_uint d)
  = Some (Z.pos (Pos.of_uint_acc d acc)).
Proof.
  revert acc; induction d; intros acc; cbn [NilEmpty.string_of_uint Pos.of_uint_acc digits_from];
    [reflexivity|..];
    match goal with
    | |- context [digit_value ?c] =>
        let v := eval vm_compute in (digit_value c) in
        change (digit_value c) with v; cbv iota beta
    end;
    match goal with
    | |- digits_from ?x _ = Some (Z.pos (Pos.of_uint_acc _ ?y)) =>
        replace x with (Z.pos y) by lia
    end; apply IHd.
Qed.

Lemma digits_from_of_uint (d : Decimal.uint) :
  digits_from 0 (NilEmpty.string_of_uint d) = Some (Z.of_uint d).
Proof.
  unfold Z.of_uint.
  induction d; cbn [NilEmpty.string_of_uint Pos.of_uint digits_from];
    [reflexivity|..];
    match goal with
    | |- context [digit_value ?c] =>
        let v := eval vm_compute in (digit_value c) in
        change (digit_value c) with v; cbv iota beta
    end;
    [exact IHd|..];
    match goal with
    | |- digits_from ?x _ = Some (Z.of_N (N.pos (Pos.of_uint_acc _ ?y))) =>
        change x with (Z.pos y)
    end; apply digits_from_of_uint_acc.
Qed.

(** The numeral printed for a natural number reads back as that number. *)
Lemma decimal_string_of_uint (d : Decimal.uint) :
  decimal (NilZero.string_of_uint d) = Some (Z.of_uint d).
Proof.
  destruct d; try reflexivity;
    unfold NilZero.string_of_uint, decimal;
    rewrite <- digits_from_of_uint; reflexivity.
Qed.

Lemma SetString10_string_of_uint (d : Decimal.uint) :
  SetString10 (NilZero.string_of_uint d) = decimal (NilZero.string_of_uint d).
Proof. destruct d; reflexivity. Qed.

(** [SetString] reads back what [String] prints, for every integer. *)
Lemma SetString10_FormatInt (z : Z) : SetString10 (FormatInt z) = Some z.
Proof.
  unfold FormatInt. pose proof (DecimalZ.of_to z) as Hz.
  destruct (Z.to_int z) as [d|d]; cbn [NilZero.string_of_int Z.of_int] in *.
  - now rewrite SetString10_string_of_uint, decimal_string_of_uint, Hz.
  - cbn [SetString10]. rewrite decimal_string_of_uint. cbn [option_map].
    now rewrite Hz.
Qed.

(** [ParseUint] reads back what [FormatUint] prints, for every uint64. *)
Lemma ParseUint64_FormatInt (n : Z) :
  (0 <= n < 2 ^ 64)%Z -> ParseUint64 (FormatInt n) = Some n.
Proof.
  intros Hn. unfold ParseUint64, FormatInt.
  pose proof (DecimalZ.of_to n) as Hz.
  destruct n as [|p|p]; [reflexivity| |lia].
  cbn [Z.to_int NilZero.string_of_int Z.of_int] in *.
  rewrite decimal_string_of_uint, Hz.
  destruct (Z.ltb_spec (Z.pos p) (2 ^ 64)); [reflexivity | lia].
Qed.

(** A string read as a run of digits holds digits only, and at least one. *)
Lemma digits_from_all_digits (s : string) (acc v : Z) :
  digits_from acc s = Some v -> all_in digit s = true.
Proof.
  revert acc; induction s as [|c s IH]; intros acc; cbn; [reflexivity|].
  unfold digit_value. destruct (digit c); [|discriminate].
  intros H. now apply IH in H.
Qed.

Lemma decimal_all_digits (s : string) (v : Z) :
  decimal s = Some v -> s <> "" /\ all_in digit s = true.
Proof.
  destruct s as [|c s]; [discriminate|]. intros H. split; [discriminate|].
  now apply digits_from_all_digits in H.
Qed.

Lemma decimal_no_colon (s : string) (v : Z) : decimal s = Some v -> colons s = 0.
Proof.
  intros [_ H]%decimal_all_digits. now apply (all_in_no_colon digit).
Qed.

(** An unsigned numeral is read the same by [SetString] and [ParseUint]. *)
Lemma SetString10_decimal (s : string) (v : Z) :
  decimal s = Some v -> SetString10 s = Some v.
Proof.
  intros H. destruct (decimal_all_digits s v H) as [_ Hd].
  destruct s as [|c s]; [discriminate|].
  cbn [all_in] in Hd. apply andb_true_iff in Hd as [Hc _].
  unfold SetString10.
  destruct (Ascii.eqb_spec c "+") as [->|Hp]; [discriminate|].
  destruct (Ascii.eqb_spec c "-") as [->|Hm]; [discriminate|].
  destruct c as [[] [] [] [] [] [] [] []]; try exact H; congruence.
Qed.

(** ** EIP-155 identifiers *)

Section EIP155Properties.

Context {X : External}.

(** Capping is idempotent: building from a stored chain id changes nothing. *)
Lemma NewEIP155_stored (c : eip155ChainID) (addr addr' : Address) (z : Z) :
  chainID (NewEIP155 c addr) = Some z ->
  NewEIP155 (OfBigInt z) addr' = NewEIP155 c addr'.
Proof.
  unfold NewEIP155. cbn [chainID bigIntOrIntToBigInt]. intros [= <-].
  destruct (Z.ltb_spec maxEIP155ChainID (bigIntOrIntToBigInt c)) as [H|H].
  - reflexivity.
  - destruct (Z.ltb_spec maxEIP155ChainID (bigIntOrIntToBigInt c)); [lia | reflexivity].
Qed.

Lemma NewEIP155_reference_reads (c : eip155ChainID) (addr : Address) :
  SetString10 (Generic_Reference (eip155_base (NewEIP155 c addr)))
  = chainID (NewEIP155 c addr).
Proof. unfold NewEIP155. cbn. apply SetString10_FormatInt. Qed.

(** X1. Every identifier [NewEIP155] builds passes [Validate], whatever the
    chain id and the address, and its reference is a numeral that
    [SetString] reads as the chain id it stores. *)
Theorem NewEIP155_valid (c : eip155ChainID) (addr : Address) :
  Generic_Validate (eip155_base (NewEIP155 c addr)) = Ok tt
  /\ SetString10 (Generic_Reference (eip155_base (NewEIP155 c addr)))
     = EIP155ChainID (Some (NewEIP155 c addr)).
Proof.
  unfold NewEIP155. cbn [eip155_base EIP155ChainID chainID Generic_Reference
    newGenericUnchecked reference].
  set (z := if (maxEIP155ChainID <? bigIntOrIntToBigInt c)%Z
            then maxEIP155ChainID else bigIntOrIntToBigInt c).
  split; [|apply SetString10_FormatInt].
  unfold Generic_Validate. cbn [namespace reference address newGenericUnchecked].
  change (MatchString NamespaceRegex NamespaceEIP155) with true.
  change (String.eqb NamespaceEIP155 NamespaceEIP155) with true.
  cbn [negb]. unfold newEIP155FromReference.
  now rewrite SetString10_FormatInt.
Qed.

(** X2. The eip155 parser normalises the reference and does so once: when
    it accepts a reference, reading the integer [z], the identifier stores
    the smaller of [z] and 10^32 - 1 and its decimal numeral, and parsing
    the stored reference with the same address gives the same identifier. *)
Theorem eip155_reference_normalised (ref hex : string) (a : eip155AccountID) :
  newEIP155FromReference ref hex = Ok a ->
  (exists z, SetString10 ref = Some z
             /\ EIP155ChainID (Some a) = Some (Z.min z maxEIP155ChainID)
             /\ Generic_Reference (eip155_base a) = FormatInt (Z.min z maxEIP155ChainID))
  /\ newEIP155FromReference (Generic_Reference (eip155_base a)) hex = Ok a.
Proof.
  unfold newEIP155FromReference.
  destruct (SetString10 ref) as [z|] eqn:Hz; [|discriminate].
  intros [= <-]. unfold NewEIP155FromHex. split.
  - exists z. split; [reflexivity|].
    unfold NewEIP155. cbn [EIP155ChainID chainID eip155_base Generic_Reference
      newGenericUnchecked reference bigIntOrIntToBigInt].
    destruct (Z.ltb_spec maxEIP155ChainID z).
    + rewrite Z.min_r by lia. auto.
    + rewrite Z.min_l by lia. auto.
  - rewrite (NewEIP155_reference_reads (OfBigInt z) (HexToAddress hex)).
    destruct (chainID (NewEIP155 (OfBigInt z) (HexToAddress hex))) as [z'|] eqn:Hc;
      [|discriminate].
    unfold NewEIP155FromHex. f_equal.
    now apply (NewEIP155_stored _ (HexToAddress hex)).
Qed.

(** X3. The setters of an identifier built by [NewEIP155] rebuild it:
    [SetAddress] keeps the chain id and never panics, [SetChainID] keeps the
    address, setting the value already stored changes nothing, and a nil
    receiver gives nil. *)
Theorem eip155_setters (c : eip155ChainID) (addr : Address) (c' : Z) (addr' : Address) :
  eip155_SetAddress (Some (NewEIP155 c addr)) addr' = Returns (Some (NewEIP155 c addr'))
  /\ eip155_SetChainID (Some (NewEIP155 c addr)) c' = Some (NewEIP155 (OfBigInt c') addr)
  /\ (forall z, EIP155ChainID (Some (NewEIP155 c addr)) = Some z ->
        eip155_SetChainID (Some (NewEIP155 c addr)) z = Some (NewEIP155 c addr))
  /\ eip155_SetChainID None c' = None
  /\ eip155_SetAddress None addr' = Returns None.
Proof.
  split; [|split; [|split; [|split]]]; try reflexivity.
  - unfold eip155_SetAddress.
    destruct (chainID (NewEIP155 c addr)) as [z|] eqn:Hc; [|discriminate].
    do 2 f_equal. now apply (NewEIP155_stored c addr).
  - intros z Hz. unfold eip155_SetChainID. f_equal.
    change (ethAddr (NewEIP155 c addr)) with addr.
    now apply (NewEIP155_stored c addr).
Qed.

End EIP155Properties.

Lemma eip155_reference_normalised_witness :
  (exists z, SetString10 "+5" = Some z
             /\ @EIP155ChainID plain_external
                  (Some (NewEIP155FromHex (OfBigInt 5) "0xab"))
                = Some (Z.min z maxEIP155ChainID)
             /\ Generic_Reference
                  (@eip155_base plain_external (NewEIP155FromHex (OfBigInt 5) "0xab"))
                = FormatInt (Z.min z maxEIP155ChainID))
  /\ @newEIP155FromReference plain_external
       (Generic_Reference
          (@eip155_base plain_external (NewEIP155FromHex (OfBigInt 5) "0xab"))) "0xab"
     = Ok (NewEIP155FromHex (OfBigInt 5) "0xab").
Proof.
  exact (@eip155_reference_normalised plain_external "+5" "0xab"
           (NewEIP155FromHex (OfBigInt 5) "0xab") eq_refl).
Defined.

(** ** Chain identifiers: parsing, validity, codecs *)

Lemma Split_colon_not_nil (s : string) : Split_colon s <> [].
Proof.
  induction s as [|c s IH]; cbn; [discriminate|].
  destruct (Ascii.eqb c colon); [discriminate|].
  destruct (Split_colon s); [contradiction | discriminate].
Qed.

Lemma Split_colon_one (s a : string) :
  Split_colon s = [a] -> s = a /\ colons a = 0.
Proof.
  revert a; induction s as [|c s IH]; intros a; cbn.
  - intros [= <-]. auto.
  - destruct (Ascii.eqb c colon) eqn:Hc.
    + intros [= _ H]. now apply Split_colon_not_nil in H.
    + destruct (Split_colon s) as [|h r] eqn:Hs; [intros [= <-] | intros [= <- ->]].
      * now apply Split_colon_not_nil in Hs.
      * destruct (IH h eq_refl) as [-> H0]. cbn. rewrite Hc. auto.
Qed.

Lemma Split_colon_two (s a b : string) :
  Split_colon s = [a; b] -> s = a ++ ":" ++ b /\ colons a = 0 /\ colons b = 0.
Proof.
  revert a; induction s as [|c s IH]; intros a; cbn; [discriminate|].
  destruct (Ascii.eqb_spec c colon) as [->|Hc].
  - intros [= <- H]. apply Split_colon_one in H as [-> H]. auto.
  - destruct (Split_colon s) as [|h r] eqn:Hs; [discriminate|].
    intros [= <- ->]. destruct (IH h eq_refl) as (-> & Ha & Hb).
    cbn. destruct (Ascii.eqb_spec c colon); [contradiction|]. auto.
Qed.

(** A reference that [validateReference] accepts, and the namespace it
    accepts it for, hold no colon. *)
Lemma validateReference_no_colon (ns : Namespace) (ref : string) :
  validateReference ns ref = Ok tt ->
  builtin_namespace ns = true /\ colons ns = 0 /\ colons ref = 0.
Proof.
  unfold validateReference, builtin_namespace.
  destruct (String.eqb_spec ns NamespaceEIP155) as [->|_].
  { unfold ParseUint64. destruct (decimal ref) as [v|] eqn:Hd; [|discriminate].
    intros _. repeat split. now apply decimal_no_colon in Hd. }
  destruct (String.eqb_spec ns NamespaceSolana) as [->|_].
  { destruct (MatchString solanaReferenceRegex ref) eqn:Hm; [|discriminate].
    intros _. repeat split.
    apply MatchString_RRep_class in Hm as [_ Hm]; [|lia].
    now apply (all_in_no_colon base58_class). }
  destruct (String.eqb_spec ns NamespaceBIP122) as [->|_]; [|discriminate].
  destruct (MatchString bip122ReferenceRegex ref) eqn:Hm; [|discriminate].
  intros _. repeat split.
  apply MatchString_RRep_class in Hm as [_ Hm]; [|lia].
  now apply (all_in_no_colon hex_lower_class).
Qed.

Lemma ChainID_Validate_ok (c : ChainID) :
  ChainID_Validate c = Ok tt ->
  ChainID_IsZero c = false
  /\ validateReference (chain_Namespace c) (chain_Reference c) = Ok tt.
Proof.
  unfold ChainID_Validate. destruct (ChainID_IsZero c); [discriminate | auto].
Qed.

Lemma ChainID_String_valid (c : ChainID) :
  ChainID_Validate c = Ok tt ->
  ChainID_String c = chain_Namespace c ++ ":" ++ chain_Reference c.
Proof.
  intros [Hz _]%ChainID_Validate_ok. unfold ChainID_String. now rewrite Hz.
Qed.

(** What [ParseChainID] returns is valid and prints as the input. *)
Lemma ParseChainID_valid_string (s : string) (c : ChainID) :
  ParseChainID s = Ok c -> ChainID_Validate c = Ok tt /\ ChainID_String c = s.
Proof.
  unfold ParseChainID.
  destruct (Split_colon s) as [|ns [|ref [|x l]]] eqn:Hs; try discriminate.
  destruct (validateReference ns ref) as [[]|e] eqn:Hv; [|discriminate].
  cbn [bind]. intros [= <-].
  apply Split_colon_two in Hs as (-> & _ & _).
  assert (Hz : ChainID_IsZero (mkChainID ns ref) = false).
  { apply validateReference_no_colon in Hv as (Hb & _).
    unfold ChainID_IsZero. cbn [chain_Namespace].
    destruct ns; [discriminate | reflexivity]. }
  unfold ChainID_Validate, ChainID_String. rewrite Hz. auto.
Qed.

(** The string of a valid chain identifier parses as that identifier. *)
Lemma ParseChainID_of_valid (c : ChainID) :
  ChainID_Validate c = Ok tt -> ParseChainID (ChainID_String c) = Ok c.
Proof.
  intros Hv. rewrite (ChainID_String_valid c Hv).
  apply ChainID_Validate_ok in Hv as [_ Hv].
  pose proof (validateReference_no_colon _ _ Hv) as (_ & Hn & Hr).
  rewrite ParseChainID_parts, Hv by assumption. now destruct c.
Qed.

(** X4. [ParseChainID] accepts exactly the strings that valid chain
    identifiers print as: it returns [c] on [s] if and only if [c] passes
    [Validate] and [c.String()] is [s]. Nothing is normalised on the way. *)
Theorem ParseChainID_iff (s : string) (c : ChainID) :
  ParseChainID s = Ok c <-> ChainID_Validate c = Ok tt /\ ChainID_String c = s.
Proof.
  split; [apply ParseChainID_valid_string|].
  intros [Hv <-]. now apply ParseChainID_of_valid.
Qed.

(** How [ParseChainID] fails: on a string without exactly one colon, the
    empty string included, with [ErrInvalidFormat]. *)
Lemma ParseChainID_format (s : string) :
  colons s <> 1 -> ParseChainID s = Err ErrInvalidFormat.
Proof.
  intros Hc. unfold ParseChainID.
  destruct (Split_colon s) as [|ns [|ref [|x l]]] eqn:Hs; try reflexivity.
  apply Split_colon_two in Hs as (-> & Ha & Hb).
  rewrite colons_app in Hc. cbn in Hc. lia.
Qed.

(** X5. A chain identifier that passes [Validate], and the zero value, go
    through the text, binary and SQL codecs unchanged, and [UnmarshalJSON]
    reads its quoted text form back. *)
Theorem ChainID_roundtrip (c : ChainID) :
  ChainID_Validate c = Ok tt \/ c = ChainID_zero ->
  ChainID_UnmarshalText (ChainID_MarshalText c) = Ok c
  /\ ChainID_UnmarshalBinary (ChainID_MarshalBinary c) = Ok c
  /\ ChainID_Scan (ChainID_Value c) = Ok c
  /\ ChainID_UnmarshalJSON (dquote :: ChainID_MarshalText c ++ [dquote])%list = Ok c.
Proof.
  assert (Hjson : forall t,
             ChainID_UnmarshalJSON (dquote :: t ++ [dquote])%list
             = if String.eqb (string_of t) "" then Ok ChainID_zero
               else ChainID_UnmarshalText (bytes_of (string_of t))).
  { intros t. unfold ChainID_UnmarshalJSON.
    assert (Hnull : String.eqb (string_of (dquote :: t ++ [dquote])%list) "null" = false)
      by reflexivity.
    rewrite Hnull.
    change (dquote :: t ++ [dquote])%list with ((dquote :: t) ++ [dquote])%list.
    rewrite length_app. cbn [List.length].
    replace (S (List.length t) + 1 - 1) with (List.length (dquote :: t))
      by (cbn [List.length]; lia).
    rewrite nth_middle. cbn [nth List.app]. rewrite !Ascii.eqb_refl.
    replace (S (List.length t) + 1 <? 2)%nat with false
      by (symmetry; apply Nat.ltb_ge; lia).
    cbn [negb orb]. unfold bslice. cbn [skipn List.length].
    rewrite drop_0, Nat.sub_succ, Nat.sub_0_r, take_app_length. reflexivity. }
  intros [Hv| ->].
  - assert (Ht : ChainID_UnmarshalText (ChainID_MarshalText c) = Ok c).
    { unfold ChainID_UnmarshalText, ChainID_MarshalText.
      rewrite length_bytes_of, string_of_bytes_of.
      rewrite (ChainID_String_valid c Hv) at 1.
      destruct (chain_Namespace c ++ ":" ++ chain_Reference c) eqn:E.
      - apply (f_equal String.length) in E. rewrite slength_app in E. cbn in E. lia.
      - cbn [String.length Nat.eqb]. now apply ParseChainID_of_valid. }
    assert (Hne : String.eqb (ChainID_String c) "" = false).
    { rewrite (ChainID_String_valid c Hv).
      destruct (chain_Namespace c ++ ":" ++ chain_Reference c) eqn:E; [|reflexivity].
      apply (f_equal String.length) in E. rewrite slength_app in E. cbn in E. lia. }
    split; [exact Ht|]. split; [exact Ht|]. split.
    + unfold ChainID_Value. apply ChainID_Validate_ok in Hv as [Hz _].
      rewrite Hz. cbn [ChainID_Scan]. now rewrite Hne.
    + rewrite Hjson, bytes_of_string_of. unfold ChainID_MarshalText at 1.
      rewrite string_of_bytes_of, Hne. exact Ht.
  - repeat split.
Qed.

Lemma ChainID_roundtrip_witness :
  ChainID_UnmarshalText (ChainID_MarshalText (mkChainID "eip155" "1"))
  = Ok (mkChainID "eip155" "1")
  /\ ChainID_UnmarshalBinary (ChainID_MarshalBinary (mkChainID "eip155" "1"))
     = Ok (mkChainID "eip155" "1")
  /\ ChainID_Scan (ChainID_Value (mkChainID "eip155" "1")) = Ok (mkChainID "eip155" "1")
  /\ ChainID_UnmarshalJSON
       (dquote :: ChainID_MarshalText (mkChainID "eip155" "1") ++ [dquote])%list
     = Ok (mkChainID "eip155" "1").
Proof.
  exact (ChainID_roundtrip (mkChainID "eip155" "1") (or_introl eq_refl)).
Defined.

Lemma validateReference_solana (ref : string) :
  validateReference NamespaceSolana ref = Ok tt
  <-> String.length ref = 32 /\ all_in base58_class ref = true.
Proof.
  unfold validateReference. change (String.eqb NamespaceSolana NamespaceEIP155) with false.
  change (String.eqb NamespaceSolana NamespaceSolana) with true. cbv iota.
  split.
  - intros H. destruct (MatchString solanaReferenceRegex ref) eqn:Hm; [|cbn in H; discriminate H].
    apply MatchString_RRep_class in Hm as [Hl Ha]; [|lia]. split; [lia | exact Ha].
  - intros [Hl Ha].
    assert (Hm : MatchString solanaReferenceRegex ref = true)
      by (apply MatchString_RRep_class; [lia | split; [lia | exact Ha]]).
    now rewrite Hm.
Qed.

Lemma validateReference_bip122 (ref : string) :
  validateReference NamespaceBIP122 ref = Ok tt
  <-> String.length ref = 32 /\ all_in hex_lower_class ref = true.
Proof.
  unfold validateReference. change (String.eqb NamespaceBIP122 NamespaceEIP155) with false.
  change (String.eqb NamespaceBIP122 NamespaceSolana) with false.
  change (String.eqb NamespaceBIP122 NamespaceBIP122) with true. cbv iota.
  split.
  - intros H. destruct (MatchString bip122ReferenceRegex ref) eqn:Hm; [|cbn in H; discriminate H].
    apply MatchString_RRep_class in Hm as [Hl Ha]; [|lia]. split; [lia | exact Ha].
  - intros [Hl Ha].
    assert (Hm : MatchString bip122ReferenceRegex ref = true)
      by (apply MatchString_RRep_class; [lia | split; [lia | exact Ha]]).
    now rewrite Hm.
Qed.

Lemma validateReference_builtin (ns : Namespace) (ref : string) :
  builtin_namespace ns = true ->
  validateReference ns ref = Ok tt \/ validateReference ns ref = Err ErrInvalidReference.
Proof.
  unfold builtin_namespace, validateReference.
  destruct (String.eqb ns NamespaceEIP155).
  { destruct (ParseUint64 ref); auto. }
  destruct (String.eqb ns NamespaceSolana).
  { destruct (MatchString solanaReferenceRegex ref); auto. }
  destruct (String.eqb ns NamespaceBIP122); [|discriminate].
  destruct (MatchString bip122ReferenceRegex ref); auto.
Qed.

(** X6. What [validateReference] accepts, namespace by namespace: for
    [eip155] a non-empty run of decimal digits whose value fits 64 bits, for
    [solana] exactly 32 characters of the base58 alphabet, for [bip122]
    exactly 32 lowercase hexadecimal digits; a rejected reference of one of
    these namespaces is an [ErrInvalidReference]. *)
Theorem validateReference_accepts (ref : string) :
  (validateReference NamespaceEIP155 ref = Ok tt
   <-> ref <> "" /\ all_in digit ref = true
       /\ exists v, digits_from 0 ref = Some v /\ (v < 2 ^ 64)%Z)
  /\ (validateReference NamespaceSolana ref = Ok tt
      <-> String.length ref = 32 /\ all_in base58_class ref = true)
  /\ (validateReference NamespaceBIP122 ref = Ok tt
      <-> String.length ref = 32 /\ all_in hex_lower_class ref = true)
  /\ (forall ns, builtin_namespace ns = true ->
        validateReference ns ref = Ok tt
        \/ validateReference ns ref = Err ErrInvalidReference).
Proof.
  split; [|split; [|split]].
  - unfold validateReference. change (String.eqb NamespaceEIP155 NamespaceEIP155) with true.
    cbv iota. unfold ParseUint64. split.
    + intros H. destruct (decimal ref) as [v|] eqn:Hd; [|cbn in H; discriminate H].
      destruct (Z.ltb_spec v (2 ^ 64)); [|cbn in H; discriminate H]. clear H.
      destruct (decimal_all_digits _ _ Hd) as [Hne Hall].
      repeat split; auto. exists v. split; [|assumption].
      destruct ref; [contradiction | exact Hd].
    + intros (Hne & _ & v & Hd & Hv).
      assert (Hd' : decimal ref = Some v) by (destruct ref; [contradiction | exact Hd]).
      rewrite Hd'. destruct (Z.ltb_spec v (2 ^ 64)); [reflexivity | lia].
  - apply validateReference_solana.
  - apply validateReference_bip122.
  - intros ns. apply validateReference_builtin.
Qed.

Lemma digit_value_range (c : ascii) (d : Z) :
  digit_value c = Some d -> (0 <= d <= 9)%Z.
Proof.
  unfold digit_value, digit, in_range.
  destruct ((nat_of_ascii "0" <=? nat_of_ascii c)%nat
            && (nat_of_ascii c <=? nat_of_ascii "9")%nat) eqn:H; [|discriminate].
  apply andb_true_iff in H as [H1 H2].
  apply Nat.leb_le in H1, H2.
  change (nat_of_ascii "0") with 48 in H1. change (nat_of_ascii "9") with 57 in H2.
  intros [= <-]. lia.
Qed.

Lemma digits_from_nonneg (s : string) (acc v : Z) :
  (0 <= acc)%Z -> digits_from acc s = Some v -> (0 <= v)%Z.
Proof.
  revert acc; induction s as [|c s IH]; intros acc Hacc; cbn.
  - intros [= <-]. exact Hacc.
  - destruct (digit_value c) as [d|] eqn:Hd; [|discriminate].
    apply digit_value_range in Hd. apply IH. lia.
Qed.

Lemma ParseUint64_range (s : string) (v : Z) :
  ParseUint64 s = Some v -> (0 <= v < 2 ^ 64)%Z /\ decimal s = Some v.
Proof.
  unfold ParseUint64. destruct (decimal s) as [w|] eqn:Hd; [|discriminate].
  destruct (Z.ltb_spec w (2 ^ 64)); [|discriminate]. intros [= <-].
  split; [|reflexivity]. split; [|assumption].
  destruct s; [discriminate|]. now apply (digits_from_nonneg _ 0 w) in Hd.
Qed.

Lemma Network_String_short (n : string) :
  String.length n <= 32 ->
  SolanaNetwork_String n = n /\ BIP122Network_String n = n.
Proof.
  intros H. unfold SolanaNetwork_String, BIP122Network_String.
  destruct (Nat.ltb_spec 32 (String.length n)); [lia | auto].
Qed.

Lemma NewEIP155ChainID_Validate (n : Z) :
  (0 <= n < 2 ^ 64)%Z -> ChainID_Validate (NewEIP155ChainID n) = Ok tt.
Proof.
  intros Hn. unfold ChainID_Validate, NewEIP155ChainID, ChainID_IsZero.
  cbn [chain_Namespace chain_Reference].
  change (String.eqb NamespaceEIP155 "") with false. cbn [andb].
  unfold validateReference. change (String.eqb NamespaceEIP155 NamespaceEIP155) with true.
  cbv iota. now rewrite ParseUint64_FormatInt.
Qed.

(** X7. The constructors of a chain identifier. [NewEIP155ChainID] of a
    uint64 is valid and prints as a string that [ParseChainID] reads back.
    [NewBIP122ChainID] returns the identifier of its argument exactly when
    that identifier is valid, and fails with [ErrInvalidReference]
    otherwise. [NewSolanaChainID], which does not validate, is valid
    exactly when the first 32 bytes of the network are 32 base58
    characters. *)
Theorem ChainID_constructors :
  (forall n : Z, (0 <= n < 2 ^ 64)%Z ->
      ChainID_Validate (NewEIP155ChainID n) = Ok tt
      /\ ParseChainID (ChainID_String (NewEIP155ChainID n)) = Ok (NewEIP155ChainID n))
  /\ (forall h : BIP122Network,
        NewBIP122ChainID h
        = match ChainID_Validate (mkChainID NamespaceBIP122 h) with
          | Ok _ => Ok (mkChainID NamespaceBIP122 h)
          | Err _ => Err ErrInvalidReference
          end)
  /\ (forall net : SolanaNetwork,
        ChainID_Validate (NewSolanaChainID net) = Ok tt
        <-> 32 <= String.length net /\ all_in base58_class (stake 32 net) = true).
Proof.
  split; [|split].
  - intros n Hn. pose proof (NewEIP155ChainID_Validate n Hn) as Hv.
    split; [exact Hv|]. now apply ParseChainID_of_valid.
  - intros h. unfold NewBIP122ChainID, ChainID_Validate.
    cbn [ChainID_IsZero chain_Namespace chain_Reference].
    change (String.eqb NamespaceBIP122 "") with false. cbn [andb].
    destruct (validateReference_builtin NamespaceBIP122 h eq_refl) as [-> | ->];
      reflexivity.
  - intros net. unfold ChainID_Validate, NewSolanaChainID, ChainID_IsZero.
    cbn [chain_Namespace chain_Reference].
    change (String.eqb NamespaceSolana "") with false. cbn [andb].
    rewrite validateReference_solana.
    unfold SolanaNetwork_String.
    destruct (Nat.ltb_spec 32 (String.length net)) as [Hl|Hl].
    + rewrite length_stake by lia. split; [intros [_ H] | intros [_ H]]; split; auto; lia.
    + split.
      * intros [Hlen H]. split; [lia|]. rewrite <- Hlen. now rewrite stake_all.
      * intros [Hlen H]. assert (E : String.length net = 32) by lia.
        split; [exact E|]. rewrite <- E in H. now rewrite stake_all in H.
Qed.

Section ChainIDToAccount.

Context {X : External}.

(** X8. [ChainID.ToAccountID] keeps the chain. With the three variants
    registered, an identifier it builds from a valid chain identifier [c]
    has a valid [ChainID()]; for [solana] and [bip122] this is [c] itself,
    and for [eip155] it is [c] with its reference rewritten as the canonical
    numeral of its value (so ["007"] becomes ["7"]). *)
Theorem ChainID_ToAccountID_chain (r : registry) (c : ChainID) (addr : string)
    (a : AccountID) :
  builtins_registered r ->
  ChainID_Validate c = Ok tt ->
  ChainID_ToAccountID r c addr = Ok a ->
  ChainID_Validate (AccountID_ChainID a) = Ok tt
  /\ (chain_Namespace c <> NamespaceEIP155 -> AccountID_ChainID a = c)
  /\ (chain_Namespace c = NamespaceEIP155 ->
      exists v, ParseUint64 (chain_Reference c) = Some v
                /\ AccountID_ChainID a = NewEIP155ChainID v).
Proof.
  intros (Re & Rs & Rb) Hv.
  destruct c as [ns ref]. pose proof Hv as Hv0.
  apply ChainID_Validate_ok in Hv as [_ Hv]. cbn [chain_Namespace chain_Reference] in *.
  unfold ChainID_ToAccountID, ParseWithNamespace. cbn [chain_Namespace chain_Reference].
  pose proof (validateReference_no_colon _ _ Hv) as (Hb & _ & _).
  unfold builtin_namespace in Hb.
  destruct (String.eqb_spec ns NamespaceEIP155) as [->|Ne].
  { rewrite Re. cbn [Parser_ParseAddress]. unfold newEIP155FromReference.
    unfold validateReference in Hv.
    change (String.eqb NamespaceEIP155 NamespaceEIP155) with true in Hv. cbv iota in Hv.
    destruct (ParseUint64 ref) as [v|] eqn:Hp; [|discriminate]. clear Hv.
    destruct (ParseUint64_range _ _ Hp) as [Hr Hd].
    rewrite (SetString10_decimal _ _ Hd). cbn [bind]. intros [= <-].
    assert (Hc : AccountID_ChainID
                   (OfEIP155 (Some (NewEIP155FromHex (OfBigInt v) addr)))
                 = NewEIP155ChainID v).
    { unfold AccountID_ChainID, NewEIP155FromHex, NewEIP155, NewEIP155ChainID.
      cbn [AccountID_base eip155_base Generic_ChainID Generic_Namespace
        Generic_Reference newGenericUnchecked namespace reference bigIntOrIntToBigInt].
      destruct (Z.ltb_spec maxEIP155ChainID v) as [H|_]; [|reflexivity].
      unfold maxEIP155ChainID in H. lia. }
    rewrite Hc. split; [|split].
    - now apply NewEIP155ChainID_Validate.
    - congruence.
    - intros _. exists v. auto. }
  destruct (String.eqb_spec ns NamespaceSolana) as [->|Ns].
  { rewrite Rs. cbn [Parser_ParseAddress].
    destruct (NewSolanaFromBase58 ref addr) as [s|e] eqn:Hs; [|discriminate].
    cbn [bind]. intros [= <-].
    unfold NewSolanaFromBase58 in Hs.
    destruct (MatchString solanaAddressRegex addr); [|discriminate].
    destruct (NewPublicKey addr) as [pk|]; [|discriminate].
    destruct (Nat.eqb (List.length (PublicKey_Bytes pk)) SolanaAddressLength);
      [|discriminate].
    cbn [negb] in Hs. injection Hs as <-.
    apply validateReference_solana in Hv as [Hl _].
    assert (Hc : AccountID_ChainID (OfSolana (Some (NewSolana ref pk)))
                 = mkChainID NamespaceSolana ref).
    { unfold AccountID_ChainID, NewSolana.
      cbn [AccountID_base solana_base Generic_ChainID Generic_Namespace
        Generic_Reference newGenericUnchecked namespace reference].
      now rewrite (proj1 (Network_String_short ref ltac:(lia))). }
    rewrite Hc. split; [exact Hv0|]. split; [reflexivity | congruence]. }
  destruct (String.eqb_spec ns NamespaceBIP122) as [->|Nb]; [|discriminate].
  rewrite Rb. cbn [Parser_ParseAddress]. intros [= <-].
  apply validateReference_bip122 in Hv as [Hl _].
  assert (Hc : AccountID_ChainID (OfBIP122 (Some (NewBIP122 ref addr)))
               = mkChainID NamespaceBIP122 ref).
  { unfold AccountID_ChainID, NewBIP122.
    cbn [AccountID_base bip122_base Generic_ChainID Generic_Namespace
      Generic_Reference newGenericUnchecked namespace reference].
    now rewrite (proj2 (Network_String_short ref ltac:(lia))). }
  rewrite Hc. split; [exact Hv0|]. split; [reflexivity | congruence].
Qed.

End ChainIDToAccount.

Lemma ChainID_ToAccountID_chain_witness :
  let c := mkChainID NamespaceBIP122 BitcoinMainnet in
  let a := @OfBIP122 plain_external (Some (NewBIP122 BitcoinMainnet "addr")) in
  ChainID_Validate (AccountID_ChainID a) = Ok tt
  /\ (chain_Namespace c <> NamespaceEIP155 -> AccountID_ChainID a = c)
  /\ (chain_Namespace c = NamespaceEIP155 ->
      exists v, ParseUint64 (chain_Reference c) = Some v
                /\ AccountID_ChainID a = NewEIP155ChainID v).
Proof.
  exact (@ChainID_ToAccountID_chain plain_external init_registry
           (mkChainID NamespaceBIP122 BitcoinMainnet) "addr"
           (OfBIP122 (Some (NewBIP122 BitcoinMainnet "addr")))
           init_registry_builtins eq_refl eq_refl).
Defined.

(** ** The registry *)

Lemma init_registry_wf : registry_wf init_registry.
Proof.
  intros ns p. unfold init_registry, RegisterParser.
  rewrite !lookup_insert. cbn [Parser_Namespace].
  repeat (case_decide; [intros [= <-]; subst ns; reflexivity|]).
  rewrite lookup_empty. intros Hnone; discriminate Hnone.
Qed.

Lemma RegisterParser_wf (p : Parser) (r : registry) :
  registry_wf r -> registry_wf (RegisterParser p r).
Proof.
  intros Hr ns q. unfold RegisterParser. rewrite lookup_insert.
  case_decide; [intros [= <-]; congruence | apply Hr].
Qed.

(** X9. [RegisterParser] files a parser under its own namespace: afterwards
    [GetParser] returns it for that namespace and answers as before for
    every other one, a later registration for the same namespace replaces
    the earlier one, and every parser of the registry keeps sitting under
    its own namespace, which holds once the built-in variants are
    registered. *)
Theorem RegisterParser_spec (p : Parser) (r : registry) :
  GetParser (RegisterParser p r) (Parser_Namespace p) = Some p
  /\ (forall ns, ns <> Parser_Namespace p ->
        GetParser (RegisterParser p r) ns = GetParser r ns)
  /\ (forall p', Parser_Namespace p' = Parser_Namespace p ->
        RegisterParser p (RegisterParser p' r) = RegisterParser p r)
  /\ (registry_wf r -> registry_wf (RegisterParser p r))
  /\ registry_wf init_registry.
Proof.
  unfold GetParser, RegisterParser. split; [|split; [|split; [|split]]].
  - apply lookup_insert_eq.
  - intros ns Hne. now apply lookup_insert_ne.
  - intros p' ->. apply insert_insert_eq.
  - apply RegisterParser_wf.
  - apply init_registry_wf.
Qed.

(** ** Reading back what was parsed *)

Lemma Network_String_idem (n : string) :
  SolanaNetwork_String (SolanaNetwork_String n) = SolanaNetwork_String n
  /\ BIP122Network_String (BIP122Network_String n) = BIP122Network_String n.
Proof.
  unfold SolanaNetwork_String, BIP122Network_String.
  destruct (Nat.ltb_spec 32 (String.length n)) as [H|H].
  - rewrite length_stake by lia. cbn. auto.
  - destruct (Nat.ltb_spec 32 (String.length n)); [lia | auto].
Qed.

Section Reparse.

Context {X : External}.

Variable r : registry.
Hypothesis Hwf : registry_wf r.
Hypothesis Hhex : hex_codec_law.
Hypothesis Hb58 : base58_codec_law.

(** An identifier that [Parse] returned is rebuilt, field for field, from
    its own namespace, reference and address. *)
Lemma reparse_fields (s : string) (a : AccountID) :
  Parse r s = Ok a ->
  exists a',
    ParseWithNamespace r (AccountID_Namespace a) (AccountID_Reference a)
      (AccountID_Address a) = Ok a'
    /\ same_fields a a'.
Proof.
  unfold Parse. destruct (SplitCAIP10 s) as [[[ns ref] addr]|e]; [|discriminate].
  cbn [bind].
  assert (Hgen : forall q,
            r !! ns = q -> (q = None \/ q = Some (GenericParser ns)) ->
            (let? g := NewGeneric ns ref addr in Ok (OfGeneric (Some g))) = Ok a ->
            exists a',
              ParseWithNamespace r (AccountID_Namespace a) (AccountID_Reference a)
                (AccountID_Address a) = Ok a'
              /\ same_fields a a').
  { intros q Hq Hcase. unfold NewGeneric. cbn zeta.
    destruct (Generic_Validate (Some (mkGeneric ns ref addr))) as [[]|e] eqn:Hv;
      [|discriminate].
    cbn [bind]. intros [= <-]. exists (OfGeneric (Some (mkGeneric ns ref addr))).
    split; [|repeat split].
    unfold ParseWithNamespace. cbn. rewrite Hq.
    destruct Hcase as [-> | ->]; cbn [Parser_ParseAddress]; unfold NewGeneric;
      cbn zeta; now rewrite Hv. }
  destruct (r !! ns) as [p|] eqn:Hp; [|now apply (Hgen None); auto].
  pose proof (Hwf _ _ Hp) as Hns.
  destruct p as [| | |ns']; cbn [Parser_Namespace Parser_ParseAddress] in *.
  - (* eip155 *)
    subst ns. unfold newEIP155FromReference.
    destruct (SetString10 ref) as [z|]; [|discriminate].
    cbn [bind]. intros [= <-].
    set (e := NewEIP155FromHex (OfBigInt z) addr).
    exists (OfEIP155 (Some e)). split; [|repeat split].
    unfold ParseWithNamespace, AccountID_Namespace, AccountID_Reference,
      AccountID_Address.
    cbn [AccountID_base].
    change (Generic_Namespace (eip155_base e)) with NamespaceEIP155.
    change (Generic_Address (eip155_base e)) with (Address_Hex (HexToAddress addr)).
    rewrite Hp. cbn [Parser_ParseAddress]. unfold newEIP155FromReference.
    unfold e, NewEIP155FromHex.
    rewrite (NewEIP155_reference_reads (OfBigInt z) (HexToAddress addr)).
    destruct (chainID (NewEIP155 (OfBigInt z) (HexToAddress addr))) as [z'|] eqn:Hc;
      [|discriminate].
    cbn [bind]. unfold NewEIP155FromHex. rewrite Hhex. do 3 f_equal.
    now apply (NewEIP155_stored _ (HexToAddress addr)).
  - (* solana *)
    subst ns. unfold NewSolanaFromBase58.
    destruct (MatchString solanaAddressRegex addr) eqn:Hm; [|discriminate].
    cbn [negb].
    destruct (NewPublicKey addr) as [pk|] eqn:Hk; [|discriminate].
    destruct (Nat.eqb_spec (List.length (PublicKey_Bytes pk)) SolanaAddressLength)
      as [Hl|]; [|discriminate].
    cbn [negb bind]. intros [= <-].
    destruct (Hb58 addr pk Hm Hk Hl) as [Hm' Hk'].
    exists (OfSolana (Some (NewSolana ref pk))). split; [|repeat split].
    unfold ParseWithNamespace, AccountID_Namespace, AccountID_Reference,
      AccountID_Address, NewSolana.
    cbn [AccountID_base solana_base Generic_Namespace Generic_Reference
      Generic_Address newGenericUnchecked namespace reference address].
    rewrite Hp. cbn [Parser_ParseAddress]. unfold NewSolanaFromBase58.
    rewrite Hm', Hk'. cbn [negb].
    destruct (Nat.eqb_spec (List.length (PublicKey_Bytes pk)) SolanaAddressLength);
      [|contradiction].
    cbn [negb bind]. unfold NewSolana.
    now rewrite (proj1 (Network_String_idem ref)).
  - (* bip122 *)
    subst ns. intros [= <-].
    exists (OfBIP122 (Some (NewBIP122 (BIP122Network_String ref) addr))).
    split.
    + unfold ParseWithNamespace, AccountID_Namespace, AccountID_Reference,
        AccountID_Address, NewBIP122.
      cbn [AccountID_base bip122_base Generic_Namespace Generic_Reference
        Generic_Address newGenericUnchecked namespace reference address].
      rewrite Hp. reflexivity.
    + unfold same_fields, AccountID_Namespace, AccountID_Reference,
        AccountID_Address, NewBIP122.
      cbn [AccountID_base bip122_base Generic_Namespace Generic_Reference
        Generic_Address newGenericUnchecked namespace reference address].
      now rewrite (proj2 (Network_String_idem ref)).
  - (* a generic parser *)
    subst ns'. now apply (Hgen (Some (GenericParser ns))); auto.
Qed.

End Reparse.

Section ParseRoundTrip.

Context {X : External}.

(** Every implementation answers [Equal] as its embedded generic
    identifier does. *)
Lemma AccountID_Equal_base (a : AccountID) (other : option AccountID) :
  AccountID_Equal a other = Generic_Equal (AccountID_base a) other.
Proof.
  assert (Hwrap : forall (z : bool) (p : option GenericAccountID),
             z = Generic_IsZero p ->
             (if z && nil_or_zero other then true
              else if z || nil_or_zero other then false
                   else Generic_Equal p other) = Generic_Equal p other).
  { intros z p ->. unfold Generic_Equal.
    destruct (Generic_IsZero p), (nil_or_zero other); reflexivity. }
  destruct a as [p|[e|]|[e|]|[e|]]; cbn [AccountID_Equal AccountID_base];
    try reflexivity;
    unfold eip155_Equal, solana_Equal, bip122_Equal;
    first [ apply Hwrap; cbn;
            first [ destruct (eip155_base e) | destruct (solana_base e)
                  | destruct (bip122_base e) ]; reflexivity
          | cbn; destruct (nil_or_zero other); reflexivity ].
Qed.

(** Identifiers with the same fields, the first not zero, are [Equal]. *)
Lemma same_fields_Equal (a b : AccountID) :
  AccountID_IsZero a = false -> same_fields a b ->
  AccountID_Equal a (Some b) = true.
Proof.
  intros Hz (Hn & Hr & Ha).
  rewrite AccountID_Equal_base. apply Generic_Equal_spec. right.
  rewrite AccountID_IsZero_fields in Hz. split; [exact Hz|].
  exists b. split; [reflexivity|]. split; [|auto].
  rewrite AccountID_IsZero_fields.
  unfold AccountID_Namespace, AccountID_Reference, AccountID_Address in *.
  destruct (AccountID_base a) as [g|]; [|discriminate].
  destruct (AccountID_base b) as [h|]; cbn in *.
  - now rewrite <- Hn, <- Hr, <- Ha.
  - rewrite Hn, Hr, Ha in Hz. discriminate.
Qed.

(** The namespace of an identifier that [Parse] returned is not empty. *)
Lemma Parse_result_namespace (r : registry) (s : string) (a : AccountID) :
  Parse r s = Ok a -> AccountID_Namespace a <> "".
Proof.
  unfold Parse. destruct (SplitCAIP10 s) as [[[ns ref] addr]|e]; [|discriminate].
  cbn [bind].
  assert (Hgen : forall ns', (let? g := NewGeneric ns' ref addr in
                              Ok (OfGeneric (Some g))) = Ok a ->
            AccountID_Namespace a <> "").
  { intros ns'. unfold NewGeneric. cbn zeta.
    destruct (Generic_Validate (Some (mkGeneric ns' ref addr))) as [[]|e] eqn:Hv;
      [|discriminate].
    cbn [bind]. intros [= <-].
    pose proof (NamespaceRegex_length _ (valid_namespace _ Hv)) as Hl.
    cbn in *. intros E. rewrite E in Hl. cbn in Hl. lia. }
  destruct (r !! ns) as [p|]; [|apply Hgen].
  destruct p as [| | |ns']; cbn [Parser_ParseAddress].
  - unfold newEIP155FromReference.
    destruct (SetString10 ref); [|discriminate].
    cbn [bind]. intros [= <-]. discriminate.
  - unfold NewSolanaFromBase58.
    destruct (MatchString solanaAddressRegex addr); [|discriminate]. cbn [negb].
    destruct (NewPublicKey addr) as [pk|]; [|discriminate].
    destruct (Nat.eqb (List.length (PublicKey_Bytes pk)) SolanaAddressLength);
      [|discriminate].
    cbn [negb bind]. intros [= <-]. discriminate.
  - intros [= <-]. discriminate.
  - apply Hgen.
Qed.

(** X10. Parsing is stable. With a registry whose parsers sit under their
    own namespaces, and collaborators that read back what they write, the
    canonical string of any identifier [Parse] has returned parses again,
    to an identifier with the same namespace, reference and address, which
    [Equal] accepts. *)
Theorem Parse_String_stable (r : registry) (s : string) (a : AccountID) :
  registry_wf r -> hex_codec_law -> base58_codec_law ->
  Parse r s = Ok a ->
  exists a',
    Parse r (AccountID_String a) = Ok a'
    /\ same_fields a a'
    /\ AccountID_Equal a (Some a') = true.
Proof.
  intros Hwf Hhex Hb58 Hp.
  destruct (Parse_result_wellformed r s a Hp) as (Hz & Hn & Hr).
  destruct (reparse_fields r Hwf Hhex Hb58 s a Hp) as (a' & Hre & Hsame).
  exists a'. split; [|split; [exact Hsame | now apply same_fields_Equal]].
  rewrite AccountID_IsZero_fields in Hz.
  unfold AccountID_String, AccountID_Namespace, AccountID_Reference,
    AccountID_Address in *.
  destruct (AccountID_base a) as [g|]; [|discriminate].
  rewrite Generic_String_nonzero by exact Hz.
  cbn [Generic_Namespace Generic_Reference Generic_Address] in *.
  rewrite Parse_parts by assumption. exact Hre.
Qed.

(** X11. The column projections lose nothing. Under the same conditions,
    an identifier [Parse] has returned is rebuilt with the same namespace,
    reference and address from its three columns by
    [AccountIDColumns.ToAccountID] and from its two columns by
    [AccountIDColumnsCompact.ToAccountID]. *)
Theorem Columns_roundtrip (r : registry) (s : string) (a : AccountID) :
  registry_wf r -> hex_codec_law -> base58_codec_law ->
  Parse r s = Ok a ->
  exists a',
    Columns_ToAccountID r (Generic_ToColumns (AccountID_base a)) = Ok a'
    /\ Compact_ToAccountID r (Generic_ToColumnsCompact (AccountID_base a)) = Ok a'
    /\ same_fields a a'.
Proof.
  intros Hwf Hhex Hb58 Hp.
  destruct (Parse_result_wellformed r s a Hp) as (Hz & Hn & Hr).
  destruct (reparse_fields r Hwf Hhex Hb58 s a Hp) as (a' & Hre & Hsame).
  exists a'. rewrite AccountID_IsZero_fields in Hz.
  unfold AccountID_Namespace, AccountID_Reference, AccountID_Address in *.
  destruct (AccountID_base a) as [g|] eqn:Hg; [|discriminate].
  cbn [Generic_Namespace Generic_Reference Generic_Address] in *.
  split; [exact Hre|]. split; [|exact Hsame].
  unfold Compact_ToAccountID, Generic_ToColumnsCompact, Compact_IsZero.
  cbn [cc_ChainID cc_Address Generic_ChainID Generic_Namespace Generic_Reference].
  assert (Hne : namespace g <> "").
  { pose proof (Parse_result_namespace r s a Hp) as H.
    unfold AccountID_Namespace in H. now rewrite Hg in H. }
  assert (Hcz : ChainID_IsZero (mkChainID (namespace g) (reference g)) = false).
  { unfold ChainID_IsZero. cbn [chain_Namespace].
    destruct (namespace g); [contradiction | reflexivity]. }
  unfold ChainID_String. rewrite Hcz. cbn [chain_Namespace chain_Reference].
  assert (Hcne : String.eqb (namespace g ++ ":" ++ reference g) "" = false).
  { destruct (namespace g); [contradiction | reflexivity]. }
  rewrite Hcne. cbn [andb].
  rewrite sapp_assoc. change ((":" ++ reference g) ++ ":" ++ address g)
    with (":" ++ reference g ++ ":" ++ address g).
  rewrite Parse_parts by assumption. exact Hre.
Qed.

End ParseRoundTrip.

(** The collaborators that keep texts as they are satisfy both laws. *)
Lemma plain_hex_law : @hex_codec_law plain_external.
Proof. intros x. reflexivity. Qed.

Lemma plain_base58_law : @base58_codec_law plain_external.
Proof.
  intros s pk Hm Hk _. cbn in Hk. injection Hk as <-.
  split; [exact Hm | reflexivity].
Qed.

Lemma Parse_String_stable_witness :
  let a := @OfEIP155 plain_external (Some (NewEIP155FromHex (OfBigInt 5) "0xab")) in
  exists a',
    Parse init_registry (AccountID_String a) = Ok a'
    /\ same_fields a a'
    /\ AccountID_Equal a (Some a') = true.
Proof.
  exact (@Parse_String_stable plain_external init_registry "eip155:+5:0xab"
           (OfEIP155 (Some (NewEIP155FromHex (OfBigInt 5) "0xab")))
           init_registry_wf plain_hex_law plain_base58_law eq_refl).
Defined.

Lemma Columns_roundtrip_witness :
  let a := @OfEIP155 plain_external (Some (NewEIP155FromHex (OfBigInt 5) "0xab")) in
  exists a',
    Columns_ToAccountID init_registry (Generic_ToColumns (AccountID_base a)) = Ok a'
    /\ Compact_ToAccountID init_registry (Generic_ToColumnsCompact (AccountID_base a))
       = Ok a'
    /\ same_fields a a'.
Proof.
  exact (@Columns_roundtrip plain_external init_registry "eip155:+5:0xab"
           (OfEIP155 (Some (NewEIP155FromHex (OfBigInt 5) "0xab")))
           init_registry_wf plain_hex_law plain_base58_law eq_refl).
Defined.

(** ** Columns *)

Lemma sapp_not_empty (a b : string) : String.eqb (a ++ ":" ++ b) "" = false.
Proof. now destruct a. Qed.

Lemma Columns_zero_eq (c : AccountIDColumns) :
  Columns_IsZero c = true -> c = mkColumns "" "" "".
Proof.
  destruct c as [n r a]. unfold Columns_IsZero. cbn.
  intros [[Hn Hr]%andb_true_iff Ha]%andb_true_iff.
  apply String.eqb_eq in Hn, Hr, Ha. now subst.
Qed.

(** X12. The two column layouts convert into each other. [ToFull] undoes
    [ToCompact] on columns whose namespace and reference hold no colon;
    [ToCompact] undoes [ToFull] wherever [ToFull] returns columns that are
    not all empty; both layouts print the same string; and [ToFull] fails
    only with [ErrEmptyValue], on an empty chain id beside an address, or
    with [ErrInvalidFormat], on a chain id without exactly one colon. *)
Theorem Columns_conversions (c : AccountIDColumns) (cc : AccountIDColumnsCompact) :
  (colons (col_Namespace c) = 0 -> colons (col_Reference c) = 0 ->
     Compact_ToFull (Columns_ToCompact c) = Ok c)
  /\ (forall c', Compact_ToFull cc = Ok c' ->
        colons (col_Namespace c') = 0 /\ colons (col_Reference c') = 0
        /\ col_Address c' = cc_Address cc
        /\ (Columns_IsZero c' = false -> Columns_ToCompact c' = cc))
  /\ Compact_String (Columns_ToCompact c) = Columns_String c
  /\ (forall e, Compact_ToFull cc = Err e ->
        (e = ErrEmptyValue /\ cc_ChainID cc = "" /\ cc_Address cc <> "")
        \/ (e = ErrInvalidFormat /\ cc_ChainID cc <> "" /\ colons (cc_ChainID cc) <> 1)).
Proof.
  split; [|split; [|split]].
  - intros Hn Hr. unfold Columns_ToCompact.
    destruct (Columns_IsZero c) eqn:Hz.
    + apply Columns_zero_eq in Hz. subst c. reflexivity.
    + unfold Compact_ToFull, Compact_IsZero. cbn [cc_ChainID cc_Address].
      rewrite sapp_not_empty. cbn [andb].
      rewrite SplitCAIP2_colon, has_colon_colons, Hr by assumption.
      cbn. now destruct c.
  - intros c'. unfold Compact_ToFull.
    destruct (Compact_IsZero cc) eqn:Hz.
    + intros [= <-]. cbn. repeat split; try discriminate.
      unfold Compact_IsZero in Hz. apply andb_true_iff in Hz as [_ Ha].
      apply String.eqb_eq in Ha. now rewrite Ha.
    + pose proof (SplitCAIP2_cases (cc_ChainID cc)) as Hs.
      destruct (SplitCAIP2 (cc_ChainID cc)) as [[ns ref]|e]; [|discriminate].
      destruct Hs as (Hc & Hn & Hr). cbn [bind]. intros [= <-].
      cbn [col_Namespace col_Reference col_Address]. repeat split; try assumption.
      intros Hcz. unfold Columns_ToCompact. rewrite Hcz.
      cbn [col_Namespace col_Reference col_Address]. rewrite <- Hc. now destruct cc.
  - unfold Columns_ToCompact, Columns_String, Compact_String.
    destruct (Columns_IsZero c); [reflexivity|].
    unfold Compact_IsZero. cbn [cc_ChainID cc_Address].
    rewrite sapp_not_empty. cbn [andb]. now rewrite sapp_assoc.
  - intros e. unfold Compact_ToFull.
    destruct (Compact_IsZero cc) eqn:Hz; [discriminate|].
    pose proof (SplitCAIP2_cases (cc_ChainID cc)) as Hs.
    destruct (SplitCAIP2 (cc_ChainID cc)) as [[ns ref]|e']; [discriminate|].
    cbn [bind]. intros [= <-].
    destruct e'; try contradiction.
    + right. destruct Hs as [Hne Hc]. auto.
    + left. split; [reflexivity|]. split; [exact Hs|].
      unfold Compact_IsZero in Hz. rewrite Hs in Hz. cbn in Hz.
      intros E. rewrite E in Hz. discriminate.
Qed.

(** X13. The projections of an identifier. Its three columns print as the
    identifier does and are all empty exactly when it is the zero value.
    Unless its namespace and reference are both empty beside a non-empty
    address, compacting its three columns gives its two columns, and these
    print as the identifier does. *)
Theorem ToColumns_projections (a : option GenericAccountID) :
  Columns_String (Generic_ToColumns a) = Generic_String a
  /\ Columns_IsZero (Generic_ToColumns a) = Generic_IsZero a
  /\ (Generic_Namespace a <> "" \/ Generic_Reference a <> "" \/ Generic_Address a = "" ->
      Columns_ToCompact (Generic_ToColumns a) = Generic_ToColumnsCompact a
      /\ Compact_String (Generic_ToColumnsCompact a) = Generic_String a).
Proof.
  destruct a as [[ns ref addr]|]; [|repeat split].
  assert (Hz : Columns_IsZero (Generic_ToColumns (Some (mkGeneric ns ref addr)))
               = Generic_IsZero (Some (mkGeneric ns ref addr))) by reflexivity.
  split; [|split; [exact Hz|]].
  - unfold Columns_String, Generic_String. rewrite Hz.
    now destruct (Generic_IsZero (Some (mkGeneric ns ref addr))).
  - cbn [Generic_Namespace Generic_Reference Generic_Address namespace reference address].
    intros H. unfold Columns_ToCompact, Generic_ToColumnsCompact, Compact_String,
      Generic_String, Compact_IsZero. rewrite Hz.
    unfold Generic_IsZero, ChainID_String, ChainID_IsZero.
    cbn [Generic_ToColumns col_Namespace col_Reference col_Address Generic_ChainID
      Generic_Namespace Generic_Reference namespace reference address chain_Namespace
      chain_Reference cc_ChainID cc_Address].
    destruct (String.eqb_spec ns "") as [->|Hn];
      destruct (String.eqb_spec ref "") as [->|Hr];
      destruct (String.eqb_spec addr "") as [->|Ha]; cbn [andb];
      try (rewrite sapp_not_empty; cbn [andb]);
      try (split; [reflexivity | now rewrite ?sapp_assoc]).
    destruct H as [H|[H|H]]; congruence.
Qed.

Section ColumnsParse.

Context {X : External}.

(** X14. Both column layouts lead to the same identifier: for columns that
    are not all empty and whose namespace and reference hold no colon,
    [ToAccountID] of the compacted columns is [ToAccountID] of the columns
    (all-empty columns are refused, with [ErrEmptyValue] by the compact
    layout). *)
Theorem Columns_ToAccountID_agree (r : registry) (c : AccountIDColumns) :
  Columns_IsZero c = false ->
  colons (col_Namespace c) = 0 -> colons (col_Reference c) = 0 ->
  Compact_ToAccountID r (Columns_ToCompact c) = Columns_ToAccountID r c
  /\ Compact_ToAccountID r (Columns_ToCompact (mkColumns "" "" "")) = Err ErrEmptyValue.
Proof.
  intros Hz Hn Hr. split; [|reflexivity].
  unfold Columns_ToCompact. rewrite Hz.
  unfold Compact_ToAccountID, Compact_IsZero. cbn [cc_ChainID cc_Address].
  rewrite sapp_not_empty. cbn [andb].
  rewrite sapp_assoc.
  change ((":" ++ col_Reference c) ++ ":" ++ col_Address c)
    with (":" ++ col_Reference c ++ ":" ++ col_Address c).
  now rewrite Parse_parts.
Qed.

End ColumnsParse.

Lemma Columns_ToAccountID_agree_witness :
  @Compact_ToAccountID plain_external init_registry
    (Columns_ToCompact (mkColumns "unknown" "1" "addr"))
  = @Columns_ToAccountID plain_external init_registry (mkColumns "unknown" "1" "addr")
  /\ @Compact_ToAccountID plain_external init_registry
       (Columns_ToCompact (mkColumns "" "" "")) = Err ErrEmptyValue.
Proof.
  exact (@Columns_ToAccountID_agree plain_external init_registry
           (mkColumns "unknown" "1" "addr") eq_refl eq_refl eq_refl).
Defined.

(** ** What the decoders return *)

Lemma length_string_of (b : list ascii) : String.length (string_of b) = List.length b.
Proof. induction b as [|c b IH]; cbn; [reflexivity | f_equal; exact IH]. Qed.

Lemma string_of_empty (b : list ascii) : String.eqb (string_of b) "" = true <-> b = [].
Proof. destruct b; cbn; split; congruence. Qed.

Lemma byte_of_nat_of_ascii (c : ascii) : byte_of (nat_of_ascii c) = c.
Proof.
  unfold byte_of. rewrite Nat.mod_small by apply nat_ascii_bounded.
  apply ascii_nat_embedding.
Qed.

Lemma PutUint16_Uint16 (b0 b1 : ascii) :
  PutUint16 (uint16_of (Uint16 b0 b1)) = [b0; b1].
Proof.
  unfold PutUint16, uint16_of, Uint16.
  pose proof (nat_ascii_bounded b0) as H0. pose proof (nat_ascii_bounded b1) as H1.
  rewrite (Nat.mod_small (nat_of_ascii b1 + 256 * nat_of_ascii b0)) by lia.
  replace ((nat_of_ascii b1 + 256 * nat_of_ascii b0) / 256) with (nat_of_ascii b0).
  2:{ symmetry. rewrite Nat.add_comm, Nat.mul_comm, Nat.div_add_l by lia.
      rewrite Nat.div_small by lia. lia. }
  rewrite byte_of_nat_of_ascii. f_equal. f_equal.
  unfold byte_of.
  replace ((nat_of_ascii b1 + 256 * nat_of_ascii b0) mod 256) with (nat_of_ascii b1).
  - apply ascii_nat_embedding.
  - symmetry. rewrite (Nat.mul_comm 256 (nat_of_ascii b0)), Nat.Div0.mod_add.
    now apply Nat.mod_small.
Qed.

Section Decoders.

Context {X : External}.

Lemma NewGeneric_Ok (ns : Namespace) (ref addr : string) (g : GenericAccountID) :
  NewGeneric ns ref addr = Ok g ->
  g = mkGeneric ns ref addr /\ Generic_Validate (Some g) = Ok tt.
Proof.
  unfold NewGeneric. cbn zeta.
  destruct (Generic_Validate (Some (mkGeneric ns ref addr))) as [[]|e] eqn:Hv;
    [|discriminate].
  cbn [bind]. intros [= <-]. auto.
Qed.

(** X15. [UnmarshalText] returns only valid identifiers, never the zero
    value, and only from their canonical text: what it returns marshals
    back to the very bytes it was given. *)
Theorem UnmarshalText_canonical (text : list ascii) (g : GenericAccountID) :
  Generic_UnmarshalText text = Ok g ->
  Generic_Validate (Some g) = Ok tt
  /\ Generic_IsZero (Some g) = false
  /\ Generic_MarshalText (Some g) = text.
Proof.
  unfold Generic_UnmarshalText.
  pose proof (SplitCAIP10_cases (string_of text)) as Hs.
  destruct (SplitCAIP10 (string_of text)) as [[[ns ref] addr]|e]; [|discriminate].
  destruct Hs as (Ht & _ & _). cbn [bind].
  intros [-> Hv]%NewGeneric_Ok.
  pose proof (valid_nonzero _ Hv) as Hz.
  split; [exact Hv|]. split; [exact Hz|].
  unfold Generic_MarshalText. rewrite (Generic_String_nonzero _ Hz).
  cbn [namespace reference address]. rewrite <- Ht. apply bytes_of_string_of.
Qed.

(** X16. [UnmarshalBinary] returns only valid identifiers and only from
    their canonical encoding: what it returns marshals back to the very
    bytes it was given. *)
Theorem UnmarshalBinary_canonical (data : list ascii) (g : GenericAccountID) :
  Generic_UnmarshalBinary data = Ok g ->
  Generic_Validate (Some g) = Ok tt
  /\ Generic_MarshalBinary (Some g) = data.
Proof.
  unfold Generic_UnmarshalBinary.
  destruct (Nat.ltb_spec (List.length data) 4) as [|Hlen]; [discriminate|].
  destruct data as [|d0 [|d1 [|d2 [|d3 rest]]]]; cbn [List.length] in Hlen; try lia.
  cbn [nth]. cbn zeta.
  set (n := nat_of_ascii d0). set (m := nat_of_ascii d1). set (k := Uint16 d2 d3).
  destruct (Nat.eqb_spec (List.length (d0 :: d1 :: d2 :: d3 :: rest)) (4 + n + m + k))
    as [He|]; [|discriminate].
  cbn [negb]. cbn [List.length] in He.
  assert (Hrest : List.length rest = n + m + k) by lia.
  unfold bslice. change (skipn 4 (d0 :: d1 :: d2 :: d3 :: rest)) with rest.
  replace (skipn (4 + n) (d0 :: d1 :: d2 :: d3 :: rest)) with (skipn n rest)
    by reflexivity.
  replace (skipn (4 + n + m) (d0 :: d1 :: d2 :: d3 :: rest)) with (skipn (n + m) rest)
    by reflexivity.
  replace (4 + n - 4) with n by lia.
  replace (4 + n + m - (4 + n)) with m by lia.
  replace (4 + n + m + k - (4 + n + m)) with k by lia.
  intros [-> Hv]%NewGeneric_Ok. split; [exact Hv|].
  unfold Generic_MarshalBinary. cbn [namespace reference address].
  rewrite !length_string_of, !bytes_of_string_of.
  rewrite !length_take, !length_drop.
  replace (n `min` List.length rest) with n by lia.
  replace (m `min` (List.length rest - n)) with m by lia.
  replace (k `min` (List.length rest - (n + m))) with k by lia.
  unfold n, m. rewrite !byte_of_nat_of_ascii. unfold k.
  rewrite PutUint16_Uint16. cbn [List.app]. do 4 f_equal.
  fold n m k.
  rewrite <- (take_drop n rest) at 4.
  f_equal. rewrite <- (take_drop m (drop n rest)) at 2.
  f_equal. rewrite drop_drop. apply take_ge. rewrite length_drop. lia.
Qed.

(** X17. [UnmarshalJSON] accepts the literal [null], which gives the zero
    value, and a text between two double quotes, taken as it stands: empty
    it gives the zero value, otherwise what [UnmarshalText] makes of it.
    Any other input is an [ErrInvalidFormat]. *)
Theorem UnmarshalJSON_accepts (data : list ascii) :
  (data = bytes_of "null" -> Generic_UnmarshalJSON data = Ok Generic_zero)
  /\ (forall t, data = (dquote :: t ++ [dquote])%list ->
        Generic_UnmarshalJSON data
        = match t with
          | [] => Ok Generic_zero
          | _ => Generic_UnmarshalText t
          end)
  /\ (data <> bytes_of "null" ->
      (forall t, data <> (dquote :: t ++ [dquote])%list) ->
      Generic_UnmarshalJSON data = Err ErrInvalidFormat).
Proof.
  split; [|split].
  - intros ->. reflexivity.
  - intros t ->. unfold Generic_UnmarshalJSON.
    assert (Hnull : String.eqb (string_of (dquote :: t ++ [dquote])%list) "null" = false)
      by reflexivity.
    rewrite Hnull.
    change (dquote :: t ++ [dquote])%list with ((dquote :: t) ++ [dquote])%list.
    rewrite length_app. cbn [List.length].
    replace (S (List.length t) + 1 - 1) with (List.length (dquote :: t))
      by (cbn [List.length]; lia).
    rewrite nth_middle. cbn [nth List.app]. rewrite !Ascii.eqb_refl.
    replace (S (List.length t) + 1 <? 2)%nat with false
      by (symmetry; apply Nat.ltb_ge; lia).
    cbn [negb orb]. unfold bslice. cbn [skipn List.length].
    rewrite drop_0, Nat.sub_succ, Nat.sub_0_r, take_app_length.
    rewrite bytes_of_string_of. now destruct t.
  - intros Hnull Hq. unfold Generic_UnmarshalJSON.
    destruct (String.eqb_spec (string_of data) "null") as [E|_].
    { exfalso. apply Hnull. rewrite <- E. symmetry. apply bytes_of_string_of. }
    destruct (Nat.ltb_spec (List.length data) 2) as [|Hlen]; [reflexivity|].
    cbn [orb].
    destruct (Ascii.eqb_spec (nth 0 data zero) dquote) as [E0|]; [|reflexivity].
    destruct (Ascii.eqb_spec (nth (List.length data - 1) data zero) dquote) as [E1|];
      [|reflexivity].
    exfalso. destruct data as [|c l]; [cbn in Hlen; lia|]. cbn in E0. subst c.
    destruct (exists_last (l := l)) as (t & y & ->).
    { intros ->. cbn in Hlen. lia. }
    apply (Hq t). f_equal. f_equal. f_equal.
    change (dquote :: t ++ [y])%list with ((dquote :: t) ++ [y])%list in E1.
    rewrite length_app in E1. cbn [List.length] in E1.
    replace (S (List.length t) + 1 - 1) with (List.length (dquote :: t)) in E1
      by (cbn [List.length]; lia).
    now rewrite nth_middle in E1.
Qed.

(** X18. A decoder returns the zero value or a valid identifier, never
    anything in between: [UnmarshalJSON] and [Scan] return what passes
    [Validate] or is the zero value; [Scan] reads a string and the bytes of
    that string alike, takes nil and the empty string as the zero value and
    refuses a source of another type with an error that wraps no sentinel. *)
Theorem decoders_valid_or_zero (g : GenericAccountID) :
  (forall data, Generic_UnmarshalJSON data = Ok g ->
      g = Generic_zero \/ Generic_Validate (Some g) = Ok tt)
  /\ (forall src, Generic_Scan src = Ok g ->
        g = Generic_zero \/ Generic_Validate (Some g) = Ok tt)
  /\ (forall v, Generic_Scan (AnyString v) = Generic_Scan (AnyBytes (bytes_of v)))
  /\ Generic_Scan AnyNil = Ok Generic_zero
  /\ Generic_Scan (AnyString "") = Ok Generic_zero
  /\ Generic_Scan AnyOther = Err ErrOther.
Proof.
  assert (Ht : forall t, Generic_UnmarshalText t = Ok g ->
             g = Generic_zero \/ Generic_Validate (Some g) = Ok tt).
  { intros t H. right.
    unfold Generic_UnmarshalText in H.
    destruct (SplitCAIP10 (string_of t)) as [[[ns ref] addr]|e]; [|discriminate].
    cbn [bind] in H. now apply NewGeneric_Ok in H. }
  split; [|split; [|split]].
  - intros data. unfold Generic_UnmarshalJSON.
    destruct (String.eqb (string_of data) "null"); [intros [= <-]; auto|].
    destruct ((List.length data <? 2)%nat || negb (Ascii.eqb (nth 0 data zero) dquote)
              || negb (Ascii.eqb (nth (List.length data - 1) data zero) dquote));
      [discriminate|].
    destruct (String.eqb (string_of (bslice 1 (List.length data - 1) data)) "");
      [intros [= <-]; auto | apply Ht].
  - intros [|v|v|]; cbn [Generic_Scan]; try discriminate.
    + intros [= <-]. auto.
    + destruct (String.eqb v ""); [intros [= <-]; auto | apply Ht].
    + destruct (Nat.eqb (List.length v) 0); [intros [= <-]; auto | apply Ht].
  - intros v. cbn [Generic_Scan]. rewrite length_bytes_of.
    destruct v; reflexivity.
  - repeat split.
Qed.

End Decoders.

Lemma UnmarshalText_canonical_witness :
  @Generic_Validate plain_external (Some (mkGeneric "unknown" "1" "addr")) = Ok tt
  /\ Generic_IsZero (Some (mkGeneric "unknown" "1" "addr")) = false
  /\ Generic_MarshalText (Some (mkGeneric "unknown" "1" "addr")) = bytes_of "unknown:1:addr".
Proof.
  exact (@UnmarshalText_canonical plain_external (bytes_of "unknown:1:addr")
           (mkGeneric "unknown" "1" "addr") eq_refl).
Defined.

Lemma UnmarshalBinary_canonical_witness :
  @Generic_Validate plain_external (Some (mkGeneric "unknown" "1" "addr")) = Ok tt
  /\ Generic_MarshalBinary (Some (mkGeneric "unknown" "1" "addr"))
     = (byte_of 7 :: byte_of 1 :: byte_of 0 :: byte_of 4 :: bytes_of "unknown1addr").
Proof.
  exact (@UnmarshalBinary_canonical plain_external
           (byte_of 7 :: byte_of 1 :: byte_of 0 :: byte_of 4 :: bytes_of "unknown1addr")
           (mkGeneric "unknown" "1" "addr") eq_refl).
Defined.

(** ** What [Validate] checks *)

Section ValidateProperties.

Context {X : External}.

(** X19. What [Validate] checks for the built-in namespaces. For [eip155]
    it is the reference alone, which must read as an integer; the address
    is not looked at. For [solana] it is the address alone, by the loose
    validation (pattern, decoding, 32 bytes), without a curve check. For
    [bip122] it is the address against the pattern of the network that the
    reference names. A rejection is an [ErrInvalidReference] for [eip155]
    and an [ErrInvalidAddress] for the other two. *)
Theorem Validate_builtin (ref addr : string) :
  Generic_Validate (Some (mkGeneric NamespaceEIP155 ref addr))
  = match SetString10 ref with
    | Some _ => Ok tt
    | None => Err ErrInvalidReference
    end
  /\ Generic_Validate (Some (mkGeneric NamespaceSolana ref addr))
     = ValidateSolanaAddressLoose addr
  /\ Generic_Validate (Some (mkGeneric NamespaceBIP122 ref addr))
     = ValidateBIP122Address ref addr
  /\ (ValidateSolanaAddressLoose addr = Ok tt
      \/ ValidateSolanaAddressLoose addr = Err ErrInvalidAddress)
  /\ (ValidateBIP122Address ref addr = Ok tt
      \/ ValidateBIP122Address ref addr = Err ErrInvalidAddress).
Proof.
  split; [|split; [|split; [|split]]].
  - unfold Generic_Validate. cbn [namespace reference address].
    change (MatchString NamespaceRegex NamespaceEIP155) with true.
    change (String.eqb NamespaceEIP155 NamespaceEIP155) with true.
    cbn [negb]. unfold newEIP155FromReference.
    now destruct (SetString10 ref).
  - unfold Generic_Validate. cbn [namespace reference address].
    change (MatchString NamespaceRegex NamespaceSolana) with true.
    change (String.eqb NamespaceSolana NamespaceEIP155) with false.
    change (String.eqb NamespaceSolana NamespaceSolana) with true.
    cbn [negb]. unfold NewSolanaFromBase58, ValidateSolanaAddressLoose.
    destruct (MatchString solanaAddressRegex addr); [|reflexivity]. cbn [negb].
    destruct (NewPublicKey addr) as [pk|]; [|reflexivity].
    now destruct (Nat.eqb (List.length (PublicKey_Bytes pk)) SolanaAddressLength).
  - unfold Generic_Validate. cbn [namespace reference address].
    change (MatchString NamespaceRegex NamespaceBIP122) with true.
    change (String.eqb NamespaceBIP122 NamespaceEIP155) with false.
    change (String.eqb NamespaceBIP122 NamespaceSolana) with false.
    change (String.eqb NamespaceBIP122 NamespaceBIP122) with true.
    cbn [negb]. unfold NewBIP122WithValidation.
    now destruct (ValidateBIP122Address ref addr) as [[]|].
  - unfold ValidateSolanaAddressLoose.
    destruct (MatchString solanaAddressRegex addr); [|auto]. cbn [negb].
    destruct (NewPublicKey addr) as [pk|]; [|auto].
    destruct (Nat.eqb (List.length (PublicKey_Bytes pk)) SolanaAddressLength); auto.
  - unfold ValidateBIP122Address.
    destruct (Nat.eqb (String.length addr) 0); [auto|].
    match goal with |- context [MatchString ?r addr] =>
      destruct (MatchString r addr); auto end.
Qed.

(** X20. The generic grammar, in full. Whatever the namespace, [NewGeneric]
    fails with [ErrInvalidNamespace] exactly when the namespace is not 3 to
    8 characters of [[-a-z0-9]]. For a namespace that is none of the three
    built-in ones it succeeds exactly when, moreover, the reference is 1 to
    32 characters of [[-_a-zA-Z0-9]] and the address 1 to 128 characters of
    [[-.%a-zA-Z0-9]], and then returns the three strings unchanged. *)
Theorem NewGeneric_grammar (ns : Namespace) (ref addr : string) :
  (NewGeneric ns ref addr = Err ErrInvalidNamespace
   <-> ~ (NamespaceMinLen <= String.length ns <= NamespaceMaxLen
          /\ all_in namespace_class ns = true))
  /\ (builtin_namespace ns = false ->
      (NewGeneric ns ref addr = Ok (mkGeneric ns ref addr)
       <-> (NamespaceMinLen <= String.length ns <= NamespaceMaxLen
            /\ all_in namespace_class ns = true)
           /\ (ReferenceMinLen <= String.length ref <= ReferenceMaxLen
               /\ all_in reference_class ref = true)
           /\ (AddressMinLen <= String.length addr <= AddressMaxLen
               /\ all_in address_class addr = true)))
  /\ (forall g, NewGeneric ns ref addr = Ok g -> g = mkGeneric ns ref addr).
Proof.
  unfold NamespaceMinLen, NamespaceMaxLen, ReferenceMinLen, ReferenceMaxLen,
    AddressMinLen, AddressMaxLen.
  rewrite <- (MatchString_RRep_class namespace_class 3 8 ns) by lia.
  rewrite <- (MatchString_RRep_class reference_class 1 32 ref) by lia.
  rewrite <- (MatchString_RRep_class address_class 1 128 addr) by lia.
  fold NamespaceRegex ReferenceRegex AddressRegex.
  split; [|split].
  - unfold NewGeneric. cbn zeta. unfold Generic_Validate.
    cbn [namespace reference address].
    destruct (MatchString NamespaceRegex ns); cbn [negb bind].
    + split; [|intros H; now contradiction H].
      destruct (String.eqb ns NamespaceEIP155).
      { unfold newEIP155FromReference. destruct (SetString10 ref); discriminate. }
      destruct (String.eqb ns NamespaceSolana).
      { unfold NewSolanaFromBase58.
        destruct (MatchString solanaAddressRegex addr); [|discriminate]. cbn [negb].
        destruct (NewPublicKey addr) as [pk|]; [|discriminate].
        destruct (Nat.eqb (List.length (PublicKey_Bytes pk)) SolanaAddressLength);
          discriminate. }
      destruct (String.eqb ns NamespaceBIP122).
      { unfold NewBIP122WithValidation, ValidateBIP122Address.
        destruct (Nat.eqb (String.length addr) 0); [discriminate|].
        match goal with |- context [MatchString ?r addr] =>
          destruct (MatchString r addr); discriminate end. }
      destruct (MatchString ReferenceRegex ref); [|discriminate].
      destruct (MatchString AddressRegex addr); discriminate.
    + split; [intros _ H; discriminate H | reflexivity].
  - intros Hb. unfold NewGeneric. cbn zeta.
    rewrite Generic_Validate_generic by exact Hb.
    cbn [namespace reference address].
    destruct (MatchString NamespaceRegex ns), (MatchString ReferenceRegex ref),
      (MatchString AddressRegex addr); cbn; split;
      try discriminate; try tauto; intros (H1 & H2 & H3); discriminate.
  - intros g H. now apply NewGeneric_Ok in H.
Qed.

(** X21. An identifier that [NewBIP122WithValidation] builds from a network
    token of at most 32 bytes passes [Validate]. (A longer token is cut to
    32 bytes when stored, and the cut token may name another network.) *)
Theorem NewBIP122WithValidation_valid (net : BIP122Network) (addr : string)
    (a : bip122AccountID) :
  String.length net <= 32 ->
  NewBIP122WithValidation net addr = Ok a ->
  Generic_Validate (bip122_base a) = Ok tt
  /\ bip122_base a = Some (mkGeneric NamespaceBIP122 net addr)
  /\ network a = net.
Proof.
  intros Hl. unfold NewBIP122WithValidation.
  destruct (ValidateBIP122Address net addr) as [[]|e] eqn:Hv; [|discriminate].
  cbn [bind]. intros [= <-]. unfold NewBIP122.
  rewrite (proj2 (Network_String_short net Hl)).
  cbn [bip122_base network]. unfold newGenericUnchecked. split; [|auto].
  unfold Generic_Validate. cbn [namespace reference address].
  change (MatchString NamespaceRegex NamespaceBIP122) with true.
  change (String.eqb NamespaceBIP122 NamespaceEIP155) with false.
  change (String.eqb NamespaceBIP122 NamespaceSolana) with false.
  change (String.eqb NamespaceBIP122 NamespaceBIP122) with true.
  cbn [negb]. unfold NewBIP122WithValidation. now rewrite Hv.
Qed.

(** With a token of 33 bytes the stored reference names Bitcoin mainnet,
    whose pattern refuses the address the generic pattern let through. *)
Example NewBIP122WithValidation_long_token :
  let net := BitcoinMainnet ++ "0" in
  let addr := "1BvBMSEYstWetqTFn5Au4m4GFg7xJaNVN2" in
  NewBIP122WithValidation net addr = Ok (NewBIP122 net addr)
  /\ Generic_Validate (bip122_base (NewBIP122 net addr)) = Err ErrInvalidAddress.
Proof. split; reflexivity. Qed.

End ValidateProperties.

Lemma NewBIP122WithValidation_valid_witness :
  @Generic_Validate plain_external
    (bip122_base (NewBIP122 BitcoinMainnet "35PBEaofpUeH8VnnNSorM1QZsadrZoQp4N")) = Ok tt
  /\ bip122_base (NewBIP122 BitcoinMainnet "35PBEaofpUeH8VnnNSorM1QZsadrZoQp4N")
     = Some (mkGeneric NamespaceBIP122 BitcoinMainnet "35PBEaofpUeH8VnnNSorM1QZsadrZoQp4N")
  /\ network (NewBIP122 BitcoinMainnet "35PBEaofpUeH8VnnNSorM1QZsadrZoQp4N")
     = BitcoinMainnet.
Proof.
  refine (@NewBIP122WithValidation_valid plain_external BitcoinMainnet
            "35PBEaofpUeH8VnnNSorM1QZsadrZoQp4N"
            (NewBIP122 BitcoinMainnet "35PBEaofpUeH8VnnNSorM1QZsadrZoQp4N") _ eq_refl).
  apply Nat.leb_le. vm_compute. reflexivity.
Defined.

(** ** Equality as a relation, [ToNative], entry points *)

Section MoreProperties.

Context {X : External}.

Lemma AccountID_Equal_iff (a b : AccountID) :
  AccountID_Equal a (Some b) = true
  <-> (AccountID_IsZero a = true /\ AccountID_IsZero b = true)
      \/ (AccountID_IsZero a = false /\ AccountID_IsZero b = false /\ same_fields a b).
Proof.
  rewrite AccountID_Equal_base, Generic_Equal_spec, <- AccountID_IsZero_fields.
  cbn [nil_or_zero]. split.
  - intros [H|(Hz & b' & [= <-] & Hb & H)]; [left; exact H | right].
    split; [exact Hz|]. split; [exact Hb | exact H].
  - intros [H|(Hz & Hb & H)]; [left; exact H | right].
    split; [exact Hz|]. exists b. auto.
Qed.

(** X22. Through the interface, [Equal] is an equivalence on identifiers of
    any mix of implementations: every identifier equals itself, the answer
    does not depend on which side is the receiver, and two identifiers
    equal to a third are equal. *)
Theorem Equal_equivalence (a b c : AccountID) :
  AccountID_Equal a (Some a) = true
  /\ AccountID_Equal a (Some b) = AccountID_Equal b (Some a)
  /\ (AccountID_Equal a (Some b) = true -> AccountID_Equal b (Some c) = true ->
      AccountID_Equal a (Some c) = true).
Proof.
  assert (Hsym : forall x y : AccountID,
             AccountID_Equal x (Some y) = true -> AccountID_Equal y (Some x) = true).
  { intros x y. rewrite !AccountID_Equal_iff. unfold same_fields.
    intros [[H1 H2]|(H1 & H2 & H3 & H4 & H5)]; [left; auto | right].
    repeat split; auto. }
  split; [|split].
  - apply AccountID_Equal_iff. unfold same_fields.
    destruct (AccountID_IsZero a); [left | right]; auto.
  - destruct (AccountID_Equal a (Some b)) eqn:Hab, (AccountID_Equal b (Some a)) eqn:Hba;
      try reflexivity.
    + apply Hsym in Hab. congruence.
    + apply Hsym in Hba. congruence.
  - rewrite !AccountID_Equal_iff. unfold same_fields.
    intros [[H1 H2]|(H1 & H2 & H3 & H4 & H5)] [[G1 G2]|(G1 & G2 & G3 & G4 & G5)];
      try congruence; [left; auto | right].
    repeat split; auto; congruence.
Qed.

(** X23. [ToNative] hands the identifier to the parser registered for its
    namespace. When that parser accepts the reference and the address,
    [ToNative] returns what the parser built; when no parser is registered
    for the namespace, or the parser refuses, it returns the receiver
    itself. It never fails, and with a registry whose parsers sit under
    their own namespaces the result has the receiver's namespace. A nil
    receiver gives nil. *)
Theorem ToNative_spec (r : registry) (g : GenericAccountID) :
  registry_wf r ->
  (exists b, Generic_ToNative r (Some g) = Some b
             /\ AccountID_Namespace b = namespace g)
  /\ (forall p b, r !! namespace g = Some p ->
        Parser_ParseAddress p (reference g) (address g) = Ok b ->
        Generic_ToNative r (Some g) = Some b)
  /\ (r !! namespace g = None -> Generic_ToNative r (Some g) = Some (OfGeneric (Some g)))
  /\ (forall p e, r !! namespace g = Some p ->
        Parser_ParseAddress p (reference g) (address g) = Err e ->
        Generic_ToNative r (Some g) = Some (OfGeneric (Some g)))
  /\ Generic_ToNative r None = None.
Proof.
  intros Hwf. split; [|split; [|split; [|split]]].
  - unfold Generic_ToNative.
    destruct (r !! namespace g) as [p|] eqn:Hp; [|eexists; split; reflexivity].
    pose proof (Hwf _ _ Hp) as Hns.
    destruct (Parser_ParseAddress p (reference g) (address g)) as [b|e] eqn:Hq;
      [|eexists; split; reflexivity].
    exists b. split; [reflexivity|]. rewrite <- Hns.
    destruct p as [| | |ns']; cbn [Parser_ParseAddress Parser_Namespace] in *.
    + unfold newEIP155FromReference in Hq.
      destruct (SetString10 (reference g)); [|discriminate].
      cbn [bind] in Hq. injection Hq as <-. reflexivity.
    + unfold NewSolanaFromBase58 in Hq.
      destruct (MatchString solanaAddressRegex (address g)); [|discriminate].
      destruct (NewPublicKey (address g)) as [pk|]; [|discriminate].
      destruct (Nat.eqb (List.length (PublicKey_Bytes pk)) SolanaAddressLength);
        [|discriminate].
      cbn [negb bind] in Hq. injection Hq as <-. reflexivity.
    + injection Hq as <-. reflexivity.
    + destruct (NewGeneric ns' (reference g) (address g)) as [h|] eqn:Hh; [|discriminate].
      cbn [bind] in Hq. injection Hq as <-.
      apply NewGeneric_Ok in Hh as [-> _]. reflexivity.
  - intros p b Hp Hb. unfold Generic_ToNative. now rewrite Hp, Hb.
  - intros Hp. unfold Generic_ToNative. now rewrite Hp.
  - intros p e Hp He. unfold Generic_ToNative. now rewrite Hp, He.
  - reflexivity.
Qed.

(** X24. The three ways in agree. For a namespace and a reference without
    a colon, [Parse] of the joined string, [ParseWithChainID] of the chain
    and the address, and [ParseWithNamespace] of the three parts return the
    same result; the chain is not checked as a chain identifier on the way. *)
Theorem entry_points_agree (r : registry) (ns ref addr : string) :
  colons ns = 0 -> colons ref = 0 ->
  Parse r (ns ++ ":" ++ ref ++ ":" ++ addr) = ParseWithNamespace r ns ref addr
  /\ ParseWithChainID r (ns ++ ":" ++ ref) addr = ParseWithNamespace r ns ref addr.
Proof.
  intros Hn Hr. unfold ParseWithChainID. rewrite sapp_assoc.
  change ((":" ++ ref) ++ ":" ++ addr) with (":" ++ ref ++ ":" ++ addr).
  now rewrite Parse_parts.
Qed.

(** X25. The setters of the Solana and BIP122 identifiers keep the network.
    On an identifier built by [NewSolana], [SetAccount] gives what
    [NewSolana] gives for the same network and the new key, even for a
    token longer than 32 bytes; on one built by [NewBIP122], [SetAddress]
    gives what [NewBIP122] gives for the same network and the new address,
    and [Network] returns the token as it was passed, uncut. A nil receiver
    gives nil. *)
Theorem network_setters (n : string) (pk pk' : PublicKey) (addr addr' : string) :
  solana_SetAccount (Some (NewSolana n pk)) pk' = Some (NewSolana n pk')
  /\ bip122_SetAddress (Some (NewBIP122 n addr)) addr' = Some (NewBIP122 n addr')
  /\ bip122_Network (Some (NewBIP122 n addr)) = n
  /\ solana_SetAccount None pk' = None
  /\ bip122_SetAddress None addr' = None.
Proof.
  split; [|repeat split].
  unfold solana_SetAccount, NewSolana.
  cbn [solana_base Generic_Reference newGenericUnchecked reference].
  now rewrite (proj1 (Network_String_idem n)).
Qed.

End MoreProperties.

Lemma ToNative_spec_witness :
  @Generic_ToNative plain_external init_registry (Some (mkGeneric "eip155" "+5" "0xab"))
  = Some (OfEIP155 (Some (NewEIP155FromHex (OfBigInt 5) "0xab")))
  /\ @Generic_ToNative plain_external init_registry (Some (mkGeneric "eip155" "five" "0xab"))
     = Some (OfGeneric (Some (mkGeneric "eip155" "five" "0xab")))
  /\ @Generic_ToNative plain_external init_registry (Some (mkGeneric "cosmos" "hub" "a"))
     = Some (OfGeneric (Some (mkGeneric "cosmos" "hub" "a"))).
Proof.
  split; [|split].
  - exact (proj1 (proj2 (@ToNative_spec plain_external init_registry
             (mkGeneric "eip155" "+5" "0xab") init_registry_wf))
             eip155Parser _ eq_refl eq_refl).
  - exact (proj1 (proj2 (proj2 (proj2 (@ToNative_spec plain_external init_registry
             (mkGeneric "eip155" "five" "0xab") init_registry_wf))))
             eip155Parser ErrInvalidReference eq_refl eq_refl).
  - exact (proj1 (proj2 (proj2 (@ToNative_spec plain_external init_registry
             (mkGeneric "cosmos" "hub" "a") init_registry_wf)))
             eq_refl).
Defined.

Lemma entry_points_agree_witness :
  @Parse plain_external init_registry ("unknown" ++ ":" ++ "1" ++ ":" ++ "addr")
  = ParseWithNamespace init_registry "unknown" "1" "addr"
  /\ @ParseWithChainID plain_external init_registry ("unknown" ++ ":" ++ "1") "addr"
     = ParseWithNamespace init_registry "unknown" "1" "addr".
Proof.
  exact (@entry_points_agree plain_external init_registry "unknown" "1" "addr"
           eq_refl eq_refl).
Defined.
